(** * Blog views: ratings, comments and similar articles

    A shallow embedding of [modules/blog/views.py]: the rating toggle
    ([RatingCreateView.post]), the comment submission
    ([CommentCreateView.form_valid]) and the similar-articles query
    ([ArticleDetailView.get_similar_articles]).

    The relational store is an explicit state, threaded through a small
    state-and-exception monad: a raised exception keeps the store as it was
    when the exception was raised (every ORM call commits on its own, the
    views open no transaction). *)

From Stdlib Require Import ZArith Ascii String List Lia Permutation Sorted.
From stdpp Require Import base option list gmap strings.

Local Open Scope string_scope.
Local Open Scope list_scope.
Local Open Scope Z_scope.

(** ** Python values *)

Module Py.

(** The exceptions the modelled code paths can raise.  [ValidationError]
    is never raised by the views; it is here so that statements about it
    can be written. *)
Inductive exn :=
| TypeError | ValueError | IntegrityError | DataError
| DoesNotExist | MultipleObjectsReturned | AttributeError | ValidationError.

#[global] Instance exn_eq_dec : EqDecision exn.
Proof. solve_decision. Defined.

(** A text is the UTF-8 encoding of a Python [str].  [utf8_decode] gives
    its code points; bytes that are not well-formed UTF-8 (overlong forms,
    surrogates and values above U+10FFFF included) give [None]: the request
    decoder has turned them into U+FFFD, which [int()] refuses. *)
Definition continuation (b : N) : option N :=
  if ((128 <=? b) && (b <=? 191))%N then Some (b - 128)%N else None.

Fixpoint utf8_decode (bs : list N) : option (list N) :=
  match bs with
  | [] => Some []
  | b :: r =>
      if (b <? 128)%N then cons b <$> utf8_decode r
      else if ((194 <=? b) && (b <=? 223))%N then
        match r with
        | b1 :: r' =>
            match continuation b1 with
            | Some x1 => cons ((b - 192) * 64 + x1)%N <$> utf8_decode r'
            | None => None
            end
        | _ => None
        end
      else if ((224 <=? b) && (b <=? 239))%N then
        match r with
        | b1 :: b2 :: r' =>
            match continuation b1, continuation b2 with
            | Some x1, Some x2 =>
                let c := ((b - 224) * 4096 + x1 * 64 + x2)%N in
                if ((2048 <=? c) && negb ((55296 <=? c) && (c <=? 57343)))%N
                then cons c <$> utf8_decode r'
                else None
            | _, _ => None
            end
        | _ => None
        end
      else if ((240 <=? b) && (b <=? 244))%N then
        match r with
        | b1 :: b2 :: b3 :: r' =>
            match continuation b1, continuation b2, continuation b3 with
            | Some x1, Some x2, Some x3 =>
                let c := ((b - 240) * 262144 + x1 * 4096 + x2 * 64 + x3)%N in
                if ((65536 <=? c) && (c <=? 1114111))%N
                then cons c <$> utf8_decode r'
                else None
            | _, _, _ => None
            end
        | _ => None
        end
      else None
  end.

(** The decimal digits of Unicode 14.0 (the table of CPython 3.11) come in
    runs of ten, zero to nine; these are the first code points of the runs. *)
Definition decimal_runs : list N :=
  [48; 1632; 1776; 1984; 2406; 2534; 2662; 2790; 2918; 3046; 3174; 3302;
   3430; 3558; 3664; 3792; 3872; 4160; 4240; 6112; 6160; 6470; 6608; 6784;
   6800; 6992; 7088; 7232; 7248; 42528; 43216; 43264; 43472; 43504; 43600;
   44016; 65296; 66720; 68912; 69734; 69872; 69942; 70096; 70384; 70736;
   70864; 71248; 71360; 71472; 71904; 72016; 72784; 73040; 73120; 92768;
   92864; 93008; 120782; 120792; 120802; 120812; 120822; 123200; 123632;
   125264; 130032
  ]%N.

Definition to_decimal (c : N) : option N :=
  (λ r, (c - r.2)%N) <$> list_find (λ r, (r ≤ c ∧ c < r + 10)%N) decimal_runs.

(** The whitespace of Unicode 14.0 outside ASCII. *)
Definition unicode_spaces : list N :=
  [133; 160; 5760; 8192; 8193; 8194; 8195; 8196; 8197; 8198; 8199; 8200;
   8201; 8202; 8232; 8233; 8239; 8287; 12288
  ]%N.

(** What [int()] makes of a code point before it reads the number: ASCII
    stays, other whitespace becomes a space, another decimal digit becomes
    the ASCII digit of its value, anything else is refused. *)
Definition to_ascii (c : N) : option ascii :=
  if (c <? 128)%N then Some (ascii_of_N c)
  else if bool_decide (c ∈ unicode_spaces) then Some " "%char
  else (λ d, ascii_of_N (48 + d)) <$> to_decimal c.

(** The ASCII whitespace [int()] skips around the number: tab, line feed,
    vertical tab, form feed, carriage return and space. *)
Definition is_space (c : ascii) : bool :=
  let n := nat_of_ascii c in
  (((9 <=? n) && (n <=? 13)) || (n =? 32))%nat.

Definition digit_of (c : ascii) : option Z :=
  let n := nat_of_ascii c in
  if ((48 <=? n) && (n <=? 57))%nat then Some (Z.of_nat (n - 48)) else None.

(** Decimal digits with single underscores between digits (PEP 515). *)
Fixpoint parse_digits (acc : Z) (after_digit : bool) (s : list ascii) : option Z :=
  match s with
  | [] => if after_digit then Some acc else None
  | c :: s' =>
      match digit_of c with
      | Some d => parse_digits (10 * acc + d) true s'
      | None =>
          if Ascii.eqb c "_" && after_digit
          then parse_digits acc false s'
          else None
      end
  end.

Fixpoint drop_spaces (s : list ascii) : list ascii :=
  match s with
  | c :: s' => if is_space c then drop_spaces s' else s
  | [] => []
  end.

Definition strip (s : list ascii) : list ascii :=
  rev (drop_spaces (rev (drop_spaces s))).

(** The interpreter's default cap on the digits of a decimal text
    ([sys.int_info.default_max_str_digits]). *)
Definition max_str_digits : Z := 4300.

Definition count_digits (s : list ascii) : Z :=
  Z.of_nat (length (filter (λ c, is_Some (digit_of c)) s)).

(** The number after the sign: no more digits than the cap. *)
Definition parse_number (s : list ascii) : option Z :=
  if (max_str_digits <? count_digits s)%Z then None
  else parse_digits 0 false s.

(** [int(s)] for a text [s]: [None] stands for [ValueError]. *)
Definition int_of_str (s : string) : option Z :=
  cps ← utf8_decode (N_of_ascii <$> list_ascii_of_string s);
  chars ← mapM to_ascii cps;
  match strip chars with
  | "+"%char :: r => parse_number r
  | "-"%char :: r => Z.opp <$> parse_number r
  | r => parse_number r
  end.

(** [str(x)] inside an f-string, for a value that may be [None]. *)
Definition format_opt (s : option string) : string :=
  match s with Some s => s | None => "None" end.

End Py.

Export Py.

(** ** JSON payloads *)

Inductive json :=
| JNull
| JBool (b : bool)
| JInt (n : Z)
| JStr (s : string).

#[global] Instance json_eq_dec : EqDecision json.
Proof. solve_decision. Defined.

Definition json_of_opt {A} (f : A → json) (o : option A) : json :=
  match o with Some a => f a | None => JNull end.

(** A dict literal, in the order the source writes its keys. *)
Definition dict := list (string * json).

Definition dict_get (k : string) (d : dict) : option json :=
  (λ r, r.2.2) <$> list_find (λ kv, kv.1 = k) d.

(** ** Entities *)

(** The tables carry the columns the views read and write ([models.py] is
    outside the source tree); an article carries the set of its tag ids. *)

Record User := mkUser {
  user_pk : Z;
  username : string;
  user_email : string
}.

Record Article := mkArticle {
  article_pk : Z;
  article_tags : gset Z
}.

Record Rating := mkRating {
  rating_pk : Z;
  rating_article_id : Z;
  rating_ip_address : string;
  rating_value : Z;
  rating_user : option User
}.

Record Comment := mkComment {
  comment_pk : option Z;
  comment_article_id : option Z;
  comment_parent_id : option Z;
  comment_author : option User;
  comment_name : option string;
  comment_email : option string;
  comment_content : string;
  comment_time_create : option Z
}.

#[global] Instance User_eq_dec : EqDecision User.
Proof. solve_decision. Defined.
#[global] Instance Rating_eq_dec : EqDecision Rating.
Proof. solve_decision. Defined.
#[global] Instance Comment_eq_dec : EqDecision Comment.
Proof. solve_decision. Defined.

(** The store: the three tables and the two primary-key sequences. *)
Record DB := mkDB {
  articles : list Article;
  ratings : list Rating;
  comments : list Comment;
  rating_seq : Z;
  comment_seq : Z
}.

Definition set_ratings (rs : list Rating) (db : DB) : DB :=
  mkDB (articles db) rs (comments db) (rating_seq db) (comment_seq db).

(** ** State and exceptions *)

Inductive result (A : Type) :=
| Ok (a : A)
| Raise (e : exn).
Arguments Ok {A} a.
Arguments Raise {A} e.

Definition M (A : Type) : Type := DB → result A * DB.

Definition ret {A} (a : A) : M A := λ db, (Ok a, db).
Definition raise {A} (e : exn) : M A := λ db, (Raise e, db).
Definition bind {A B} (m : M A) (k : A → M B) : M B :=
  λ db, match m db with
        | (Ok a, db') => k a db'
        | (Raise e, db') => (Raise e, db')
        end.
Definition get_db : M DB := λ db, (Ok db, db).
Definition put_db (db : DB) : M unit := λ _, (Ok tt, db).

Notation "x <~ c1 ;; c2" := (bind c1 (λ x, c2))
  (at level 100, c1 at next level, right associativity).
Notation "c1 ;;; c2" := (bind c1 (λ _, c2))
  (at level 100, right associativity).

(** ** The request *)

Inductive RequestUser :=
| AnonymousUser
| LoggedIn (u : User).

Definition is_authenticated (u : RequestUser) : bool :=
  match u with LoggedIn _ => true | AnonymousUser => false end.

(** [request.user if request.user.is_authenticated else None] *)
Definition session_user (u : RequestUser) : option User :=
  match u with LoggedIn u => Some u | AnonymousUser => None end.

Record Request := mkRequest {
  POST : list (string * string);
  headers : list (string * string);
  request_user : RequestUser
}.

(** [QueryDict.get]: the last value submitted under the key, if any. *)
Definition querydict_get (key : string) (q : list (string * string)) : option string :=
  last (snd <$> filter (λ kv, kv.1 = key) q).

(** [int(x)] for what [QueryDict.get] returned. *)
Definition py_int (x : option string) : M Z :=
  match x with
  | None => raise TypeError
  | Some s =>
      match int_of_str s with
      | Some n => ret n
      | None => raise ValueError
      end
  end.

(** ** The ORM calls the views make *)

Module ORM.

(** The range of a 32-bit [integer] column (the views use the PostgreSQL
    search functions, so the store is PostgreSQL). *)
Definition int4 (v : Z) : bool := ((-2147483648 <=? v) && (v <=? 2147483647))%Z.

Definition article_exists (a : Z) (db : DB) : bool :=
  bool_decide (a ∈ article_pk <$> articles db).

Definition rating_rows (a : Z) (ip : string) (db : DB) : list Rating :=
  filter (λ r, rating_article_id r = a ∧ rating_ip_address r = ip) (ratings db).

(** An INSERT into the rating table that a constraint refuses: the key
    drawn from the sequence is lost, no row is written. *)
Definition refused_insert {A} : M A :=
  db <~ get_db ;;
  put_db (mkDB (articles db) (ratings db) (comments db)
               (rating_seq db + 1) (comment_seq db)) ;;;
  raise IntegrityError.

(** [Rating.objects.create]: a value outside the column fails before the
    statement runs; a missing article (the foreign key) refuses the insert;
    otherwise the new row takes the next key.  The sequence of the table is
    taken to be ahead of the keys in use. *)
Definition create (a : Z) (ip : string) (value : Z) (user : option User) : M Rating :=
  db <~ get_db ;;
  if negb (int4 value) then raise DataError
  else if negb (article_exists a db) then refused_insert
  else
    let r := mkRating (rating_seq db) a ip value user in
    put_db (mkDB (articles db) (ratings db ++ [r]) (comments db)
                 (rating_seq db + 1) (comment_seq db)) ;;;
    ret r.

(** [Rating.objects.get_or_create(article_id=, ip_address=, defaults=)].
    The lookup coerces the article id as the integer field does; a missing
    id looks up NULL, finds nothing and cannot be inserted. *)
Definition get_or_create (article_id : option string) (ip : string)
    (value : Z) (user : option User) : M (Rating * bool) :=
  match article_id with
  | None => if negb (int4 value) then raise DataError else refused_insert
  | Some s =>
      match int_of_str s with
      | None => raise ValueError
      | Some a =>
          db <~ get_db ;;
          match rating_rows a ip db with
          | [] => r <~ create a ip value user ;; ret (r, true)
          | [r] => ret (r, false)
          | _ => raise MultipleObjectsReturned
          end
      end
  end.

(** [rating.delete()]: removes the row with the instance's key. *)
Definition delete (r : Rating) : M unit :=
  db <~ get_db ;;
  put_db (set_ratings (filter (λ x, rating_pk x ≠ rating_pk r) (ratings db)) db).

(** [rating.save()] on an instance with a key: updates the row, or inserts
    it when no row has the key. *)
Definition save (r : Rating) : M unit :=
  db <~ get_db ;;
  if negb (int4 (rating_value r)) then raise DataError
  else if bool_decide (rating_pk r ∈ rating_pk <$> ratings db)
  then put_db (set_ratings
         ((λ x, if bool_decide (rating_pk x = rating_pk r) then r else x)
            <$> ratings db) db)
  else put_db (set_ratings (ratings db ++ [r]) db).

(** [rating.article]: fetches the article the instance points to. *)
Definition article (r : Rating) : M Article :=
  db <~ get_db ;;
  match list_find (λ a, article_pk a = rating_article_id r) (articles db) with
  | Some (_, a) => ret a
  | None => raise DoesNotExist
  end.

End ORM.

(** The values stored for an article, in table order. *)
Definition article_values (a : Z) (db : DB) : list Z :=
  rating_value <$> filter (λ r, rating_article_id r = a) (ratings db).

Definition sum_values (vs : list Z) : Z := foldr Z.add 0 vs.

(** Modelled from the spec: [Article.get_sum_rating] lives in [models.py],
    which is not part of the source tree; it is "the sum of all rating
    values for that article", read from the store at the time of the call. *)
Definition get_sum_rating (a : Article) : M Z :=
  db <~ get_db ;;
  ret (sum_values (article_values (article_pk a) db)).

(** ** RatingCreateView *)

Inductive Response :=
| JsonResponse (data : dict) (status : Z)
| HttpResponseRedirect (url : string).

Section RatingCreateView.

(** [get_client_ip] comes from [services/utils.py], outside the source
    tree: it is a parameter of the view. *)
Variable get_client_ip : Request → string.

Definition rating_reply (status : string) (rating_sum : Z) : Response :=
  JsonResponse [("status", JStr status); ("rating_sum", JInt rating_sum)] 200.

Definition post (request : Request) : M Response :=
  let article_id := querydict_get "article_id" (POST request) in
  value <~ py_int (querydict_get "value" (POST request)) ;;
  let ip_address := get_client_ip request in
  let user := session_user (request_user request) in
  rc <~ ORM.get_or_create article_id ip_address value user ;;
  let '(rating, created) := rc in
  if negb created then
    if (rating_value rating =? value)%Z then
      ORM.delete rating ;;;
      art <~ ORM.article rating ;;
      s <~ get_sum_rating art ;;
      ret (rating_reply "deleted" s)
    else
      let rating := mkRating (rating_pk rating) (rating_article_id rating)
                      (rating_ip_address rating) value user in
      ORM.save rating ;;;
      art <~ ORM.article rating ;;
      s <~ get_sum_rating art ;;
      ret (rating_reply "updated" s)
  else
    art <~ ORM.article rating ;;
    s <~ get_sum_rating art ;;
    ret (rating_reply "created" s).

End RatingCreateView.

(** ** CommentCreateView *)

(** Modelled from the spec: [CommentCreateForm] lives in [forms.py], which
    is not part of the source tree.  Its cleaned data carries the content,
    the optional parent id and the optional name and email of an anonymous
    submitter; a key the form did not clean reads as [None]. *)
Record CommentCreateForm := mkForm {
  cleaned_content : string;
  cleaned_name : option string;
  cleaned_email : option string;
  cleaned_parent : option Z
}.

(** Modelled from the spec: [form.save(commit=False)] builds an unsaved
    comment from the submitted fields; the form has no author, article or
    parent column of its own. *)
Definition form_save_no_commit (form : CommentCreateForm) : Comment :=
  mkComment None None None None (cleaned_name form) (cleaned_email form)
            (cleaned_content form) None.

Definition ascii_lower (c : ascii) : ascii :=
  let n := nat_of_ascii c in
  if ((65 <=? n) && (n <=? 90))%nat then ascii_of_nat (n + 32) else c.

Fixpoint lower (s : string) : string :=
  match s with
  | EmptyString => EmptyString
  | String c s' => String (ascii_lower c) (lower s')
  end.

(** [request.headers.get]: header names compare without case. *)
Definition headers_get (name : string) (hs : list (string * string)) : option string :=
  (λ r, r.2.2) <$> list_find (λ kv, lower kv.1 = lower name) hs.

Definition is_ajax (request : Request) : bool :=
  bool_decide (headers_get "X-Requested-With" (headers request) = Some "XMLHttpRequest").

Module CommentORM.

Definition comment_exists (p : Z) (db : DB) : bool :=
  bool_decide (Some p ∈ comment_pk <$> comments db).

(** An INSERT into the comment table that a constraint refuses: the key
    drawn from the sequence is lost, no row is written. *)
Definition refused_insert {A} : M A :=
  db <~ get_db ;;
  put_db (mkDB (articles db) (ratings db) (comments db)
               (rating_seq db) (comment_seq db + 1)) ;;;
  raise IntegrityError.

(** The INSERT: a missing article key (NOT NULL) or a missing article (the
    foreign key) refuses it. *)
Definition insert (now : Z) (c : Comment) : M Comment :=
  db <~ get_db ;;
  match comment_article_id c with
  | None => refused_insert
  | Some a =>
      if negb (ORM.article_exists a db) then refused_insert
      else
        let c' := mkComment (Some (comment_seq db)) (comment_article_id c)
                    (comment_parent_id c) (comment_author c) (comment_name c)
                    (comment_email c) (comment_content c) (Some now) in
        put_db (mkDB (articles db) (ratings db) (comments db ++ [c'])
                     (rating_seq db) (comment_seq db + 1)) ;;;
        ret c'
  end.

(** [comment.save()] on a new tree node: the parent, when one is cited, is
    fetched first to place the node under it; then the row is inserted with
    the next key and the creation time.  The bookkeeping columns of the
    tree (left, right, level) are left out. *)
Definition save (now : Z) (c : Comment) : M Comment :=
  db <~ get_db ;;
  match comment_parent_id c with
  | Some p =>
      if comment_exists p db then insert now c else raise DoesNotExist
  | None => insert now c
  end.

(** [comment.article] *)
Definition article (c : Comment) : M Article :=
  db <~ get_db ;;
  match comment_article_id c with
  | None => raise DoesNotExist
  | Some a =>
      match list_find (λ x, article_pk x = a) (articles db) with
      | Some (_, x) => ret x
      | None => raise DoesNotExist
      end
  end.

(** [comment.is_child_node()] *)
Definition is_child_node (c : Comment) : bool :=
  bool_decide (comment_parent_id c ≠ None).

End CommentORM.

Section CommentCreateView.

(** What the view reads from outside the source tree: the clock, the date
    formatting, the avatar and the two canonical links. *)
Variable now : Z.
Variable strftime : Z → string.
Variable get_avatar : Comment → string.
Variable profile_get_absolute_url : User → string.
Variable article_get_absolute_url : Article → string.

Definition comment_data (comment : Comment) (author : json) (url : string) : dict :=
  [("is_child", JBool (CommentORM.is_child_node comment));
   ("id", json_of_opt JInt (comment_pk comment));
   ("author", author);
   ("parent_id", json_of_opt JInt (comment_parent_id comment));
   ("time_create", json_of_opt (λ t, JStr (strftime t)) (comment_time_create comment));
   ("avatar", JStr (get_avatar comment));
   ("content", JStr (comment_content comment));
   ("get_absolute_url", JStr url)].

Definition form_valid (kwargs_pk : option Z) (request : Request)
    (form : CommentCreateForm) : M Response :=
  let comment := form_save_no_commit form in
  let comment :=
    mkComment (comment_pk comment) kwargs_pk (comment_parent_id comment)
      (comment_author comment) (comment_name comment) (comment_email comment)
      (comment_content comment) (comment_time_create comment) in
  let comment :=
    match request_user request with
    | LoggedIn u =>
        mkComment (comment_pk comment) (comment_article_id comment)
          (comment_parent_id comment) (Some u) (Some (username u))
          (Some (user_email u)) (comment_content comment)
          (comment_time_create comment)
    | AnonymousUser =>
        mkComment (comment_pk comment) (comment_article_id comment)
          (comment_parent_id comment) (comment_author comment)
          (cleaned_name form) (cleaned_email form) (comment_content comment)
          (comment_time_create comment)
    end in
  let comment :=
    mkComment (comment_pk comment) (comment_article_id comment)
      (cleaned_parent form) (comment_author comment) (comment_name comment)
      (comment_email comment) (comment_content comment)
      (comment_time_create comment) in
  comment <~ CommentORM.save now comment ;;
  if is_ajax request then
    if is_authenticated (request_user request) then
      match comment_author comment with
      | Some author =>
          ret (JsonResponse
                 (comment_data comment (JStr (username author))
                    (profile_get_absolute_url author)) 200)
      | None => raise AttributeError
      end
    else
      ret (JsonResponse
             (comment_data comment (json_of_opt JStr (comment_name comment))
                ("mailto:" ++ format_opt (comment_email comment))%string) 200)
  else
    art <~ CommentORM.article comment ;;
    ret (HttpResponseRedirect (article_get_absolute_url art)).

End CommentCreateView.

(** ** ArticleDetailView.get_similar_articles *)

Module Random.

(** [x[i], x[j] = x[j], x[i]] for two indices in range. *)
Definition swap {A} (i j : nat) (x : list A) : list A :=
  match x !! i, x !! j with
  | Some a, Some b => <[i:=b]> (<[j:=a]> x)
  | _, _ => x
  end.

(** The generator is the list of its future raw draws; [randbelow n] reduces
    the next draw into [0, n). *)
Definition randbelow (n : nat) (draws : list nat) : nat * list nat :=
  (hd 0%nat draws `mod` n, tl draws)%nat.

(** [for i in reversed(range(1, len(x))): j = randbelow(i + 1); swap],
    entered with the loop's first index. *)
Fixpoint shuffle_from {A} (i : nat) (draws : list nat) (x : list A) : list A :=
  match i with
  | O => x
  | S i' =>
      let '(j, draws') := randbelow (i + 1) draws in
      shuffle_from i' draws' (swap i j x)
  end.

(** [random.shuffle(x)] *)
Definition shuffle {A} (draws : list nat) (x : list A) : list A :=
  shuffle_from (length x - 1) draws x.

End Random.

(** [Count('tags')] over the join that [filter(tags__in=ids)] left: the
    number of the article's tags that are among [ids]. *)
Definition related_tags (ids : gset Z) (a : Article) : nat :=
  size (article_tags a ∩ ids).

(** [filter(tags__in=ids).exclude(id=pk)], one entry per article once the
    annotation groups the joined rows. *)
Definition filter_tags_in (ids : gset Z) (pk : Z) (l : list Article) : list Article :=
  filter (λ a, article_tags a ∩ ids ≠ ∅ ∧ article_pk a ≠ pk) l.

(** [order_by('-related_tags')]: insertion of an earlier row before the
    later rows that do not outrank it. *)
Fixpoint insert_desc (key : Article → nat) (x : Article) (l : list Article) : list Article :=
  match l with
  | [] => [x]
  | y :: l' =>
      if (key y <=? key x)%nat then x :: l else y :: insert_desc key x l'
  end.

Definition order_by_desc (key : Article → nat) (l : list Article) : list Article :=
  foldr (insert_desc key) [] l.

Definition get_similar_articles (draws : list nat) (db : DB) (obj : Article) : list Article :=
  let article_tags_ids := article_tags obj in
  let similar_articles := filter_tags_in article_tags_ids (article_pk obj) (articles db) in
  let similar_articles := order_by_desc (related_tags article_tags_ids) similar_articles in
  let similar_articles_list := Random.shuffle draws similar_articles in
  take 6 similar_articles_list.

(** * Vocabulary of the statements *)

(** ** Ratings *)

(** The integer a POST field carries, when it carries one. *)
Definition posted_int (key : string) (req : Request) : option Z :=
  querydict_get key (POST req) ≫= int_of_str.

Definition add_rating (r : Rating) (db : DB) : DB :=
  mkDB (articles db) (ratings db ++ [r]) (comments db)
       (rating_seq db + 1) (comment_seq db).

(** The store after a refused insert: only the sequence has moved. *)
Definition skip_rating_key (db : DB) : DB :=
  mkDB (articles db) (ratings db) (comments db)
       (rating_seq db + 1) (comment_seq db).

Definition skip_comment_key (db : DB) : DB :=
  mkDB (articles db) (ratings db) (comments db)
       (rating_seq db) (comment_seq db + 1).

Definition remove_rating (r : Rating) (db : DB) : DB :=
  set_ratings (filter (λ x, rating_pk x ≠ rating_pk r) (ratings db)) db.

Definition replace_rating (r : Rating) (db : DB) : DB :=
  set_ratings
    ((λ x, if bool_decide (rating_pk x = rating_pk r) then r else x)
       <$> ratings db) db.

(** The ["status"] entry of a JSON reply. *)
Definition reply_status (r : result Response) : option json :=
  match r with
  | Ok (JsonResponse data _) => dict_get "status" data
  | _ => None
  end.

(** The next key of the rating sequence is not in use. *)
Definition rating_seq_fresh (db : DB) : Prop :=
  Forall (λ r, rating_pk r ≠ rating_seq db) (ratings db).

(** The rating table as the database keeps it: keys are unique and behind
    the sequence, and a voter address has at most one row per article. *)
Definition ratings_wf (db : DB) : Prop :=
  NoDup (rating_pk <$> ratings db) ∧
  Forall (λ r, rating_pk r < rating_seq db) (ratings db) ∧
  ∀ a ip, (length (ORM.rating_rows a ip db) ≤ 1)%nat.

Section RatingStatements.

Variable get_client_ip : Request → string.

(** What a successful vote did, by the rows the voter had for the article. *)
Definition vote_outcome (req : Request) (db : DB) (a v : Z)
    (status : string) (db' : DB) : Prop :=
  match ORM.rating_rows a (get_client_ip req) db with
  | [] =>
      status = "created" ∧
      db' = add_rating (mkRating (rating_seq db) a (get_client_ip req) v
                          (session_user (request_user req))) db ∧
      sum_values (article_values a db') = sum_values (article_values a db) + v
  | [r] =>
      if decide (rating_value r = v)
      then
        status = "deleted" ∧ db' = remove_rating r db ∧ (r ∉ ratings db') ∧
        (NoDup (rating_pk <$> ratings db) →
         sum_values (article_values a db') = sum_values (article_values a db) - v)
      else
        let r' := mkRating (rating_pk r) a (get_client_ip req) v
                    (session_user (request_user req)) in
        status = "updated" ∧ db' = replace_rating r' db ∧ r' ∈ ratings db' ∧
        (NoDup (rating_pk <$> ratings db) →
         sum_values (article_values a db') =
         sum_values (article_values a db) - rating_value r + v)
  | _ => False
  end.

(** "Any value other than +1 and -1 is rejected with ValidationError before
    a rating row is touched", at one request and store. *)
Definition value_checked_at (req : Request) (db : DB) : Prop :=
  ∀ v, posted_int "value" req = Some v → v ≠ 1 → v ≠ -1 →
       (post get_client_ip req db).1 = Raise ValidationError ∧
       ratings (post get_client_ip req db).2 = ratings db.

End RatingStatements.

(** ** Comments *)

Definition add_comment (c : Comment) (db : DB) : DB :=
  mkDB (articles db) (ratings db) (comments db ++ [c])
       (rating_seq db) (comment_seq db + 1).

(** The row [comment.save()] writes for an unsaved comment. *)
Definition stored (now : Z) (db : DB) (c : Comment) : Comment :=
  mkComment (Some (comment_seq db)) (comment_article_id c) (comment_parent_id c)
    (comment_author c) (comment_name c) (comment_email c) (comment_content c)
    (Some now).

(** The unsaved comment [form_valid] has assembled when it calls [save]. *)
Definition submitted (kwargs_pk : option Z) (req : Request)
    (form : CommentCreateForm) : Comment :=
  mkComment None kwargs_pk (cleaned_parent form)
    (session_user (request_user req))
    (match request_user req with
     | LoggedIn u => Some (username u)
     | AnonymousUser => cleaned_name form
     end)
    (match request_user req with
     | LoggedIn u => Some (user_email u)
     | AnonymousUser => cleaned_email form
     end)
    (cleaned_content form) None.

Definition parent_known (c : Comment) (db : DB) : bool :=
  match comment_parent_id c with
  | Some p => CommentORM.comment_exists p db
  | None => true
  end.

Definition article_known (c : Comment) (db : DB) : bool :=
  match comment_article_id c with
  | Some a => ORM.article_exists a db
  | None => false
  end.



Section CommentStatements.

Variable now : Z.
Variable strftime : Z → string.
Variable get_avatar : Comment → string.
Variable profile_get_absolute_url : User → string.
Variable article_get_absolute_url : Article → string.

(** What [form_valid] does with the saved comment. *)
Definition reply_to (req : Request) (comment : Comment) : M Response :=
  if is_ajax req then
    if is_authenticated (request_user req) then
      match comment_author comment with
      | Some author =>
          ret (JsonResponse
                 (comment_data strftime get_avatar comment (JStr (username author))
                    (profile_get_absolute_url author)) 200)
      | None => raise AttributeError
      end
    else
      ret (JsonResponse
             (comment_data strftime get_avatar comment
                (json_of_opt JStr (comment_name comment))
                ("mailto:" ++ format_opt (comment_email comment))%string) 200)
  else
    art <~ CommentORM.article comment ;;
    ret (HttpResponseRedirect (article_get_absolute_url art)).


(** "A parent from another article is refused with ValidationError and
    nothing is stored", at one submission. *)
Definition parent_checked_at (kw : option Z) (req : Request)
    (form : CommentCreateForm) (db : DB) : Prop :=
  let out := form_valid now strftime get_avatar profile_get_absolute_url
               article_get_absolute_url kw req form db in
  ∀ a p pc,
    kw = Some a → cleaned_parent form = Some p →
    pc ∈ comments db → comment_pk pc = Some p →
    comment_article_id pc ≠ Some a →
    out.1 = Raise ValidationError ∧ comments out.2 = comments db.

End CommentStatements.

(** ** Similar articles *)

Definition outranks (key : Article → nat) (a b : Article) : Prop :=
  (key b ≤ key a)%nat.

(** ** Sequences of votes, frames and the comment table *)

Section VoteSequences.

Variable get_client_ip : Request → string.

(** [n] successive posts of one request: the answers and the final store. *)
Fixpoint vote_times (n : nat) (req : Request) (db : DB) : list (result Response) * DB :=
  match n with
  | O => ([], db)
  | S n' =>
      let '(r, db1) := post get_client_ip req db in
      let '(rs, db2) := vote_times n' req db1 in
      (r :: rs, db2)
  end.

(** The store after a sequence of posts. *)
Definition run_posts (reqs : list Request) (db : DB) : DB :=
  foldl (λ d req, (post get_client_ip req d).2) db reqs.

End VoteSequences.

(** The status tags of a run of toggles, from a present or absent row. *)
Fixpoint toggle_statuses (present : bool) (n : nat) : list (option json) :=
  match n with
  | O => []
  | S n' =>
      Some (JStr (if present then "deleted" else "created"))
        :: toggle_statuses (negb present) n'
  end.

(** A store with another rating table and sequence, and one with another
    comment table and sequence. *)
Definition with_ratings (rs : list Rating) (k : Z) (db : DB) : DB :=
  mkDB (articles db) rs (comments db) k (comment_seq db).

Definition with_comments (cs : list Comment) (k : Z) (db : DB) : DB :=
  mkDB (articles db) (ratings db) cs (rating_seq db) k.

Definition is_ok {A} (r : result A) : bool :=
  match r with Ok _ => true | Raise _ => false end.

(** The comment table as the database keeps it: keys are unique and behind
    the sequence, a parent is an existing comment with a smaller key, and
    the article exists. *)
Definition comments_wf (db : DB) : Prop :=
  NoDup (comment_pk <$> comments db) ∧
  Forall (λ c, ∃ k, comment_pk c = Some k ∧ k < comment_seq db ∧
               (∀ p, comment_parent_id c = Some p →
                     p < k ∧ CommentORM.comment_exists p db = true) ∧
               ∃ a, comment_article_id c = Some a ∧
                    ORM.article_exists a db = true)
         (comments db).

(** ** ArticleByTagListView *)

Record Tag := mkTag {
  tag_pk : Z;
  tag_name : string;
  tag_slug : string
}.

#[global] Instance Tag_eq_dec : EqDecision Tag.
Proof. solve_decision. Defined.

Section ArticleByTagListView.

(** The tag table of the tagging library. *)
Variable tag_table : list Tag.

(** [Tag.objects.get(slug=slug)] *)
Definition tag_get (slug : string) : M Tag :=
  match filter (λ t, tag_slug t = slug) tag_table with
  | [] => raise DoesNotExist
  | [t] => ret t
  | _ => raise MultipleObjectsReturned
  end.

(** [Article.objects.all().filter(tags__slug=slug)]: the join yields an
    article once for each of its tags that carries the slug. *)
Definition filter_tags_slug (slug : string) (l : list Article) : list Article :=
  l ≫= λ a,
    replicate
      (length (filter (λ t, tag_pk t ∈ article_tags a ∧ tag_slug t = slug) tag_table))
      a.

(** [get_queryset]: the tag it keeps in [self.tag] and the queryset. *)
Definition by_tag_get_queryset (kwargs_tag : string) : M (Tag * list Article) :=
  tag <~ tag_get kwargs_tag ;;
  db <~ get_db ;;
  let queryset := filter_tags_slug (tag_slug tag) (articles db) in
  ret (tag, queryset).

End ArticleByTagListView.

(** [get_context_data]: the page title. *)
Definition by_tag_title (tag : Tag) : string :=
  ("Статьи по тегу: " ++ tag_name tag)%string.

(** ** Concrete requests and stores *)

Module Example.

Definition client_ip (r : Request) : string :=
  default "" (headers_get "X-Forwarded-For" (headers r)).

Definition vote_request (ip article value : string) (u : RequestUser) : Request :=
  mkRequest [("article_id", article); ("value", value)]
            [("X-Forwarded-For", ip)] u.

Definition alice : User := mkUser 1 "alice" "alice@x.com".

(** Two articles; one anonymous comment (key 10) on article 6. *)
Definition blog : DB :=
  mkDB [mkArticle 5 {[1; 2]}; mkArticle 6 {[2]}]
       []
       [mkComment (Some 10) (Some 6) None None (Some "Ann") (Some "ann@x.com")
          "First" (Some 0)]
       1 11.

Definition vote_up : Request := vote_request "10.0.0.1" "5" "+1" AnonymousUser.
Definition vote_down_alice : Request :=
  vote_request "10.0.0.1" "5" "-1" (LoggedIn alice).
Definition vote_five : Request := vote_request "10.0.0.1" "5" "5" AnonymousUser.

(** [blog] after the first vote of 10.0.0.1 on article 5. *)
Definition blog_voted : DB :=
  mkDB (articles blog) [mkRating 1 5 "10.0.0.1" 1 None] (comments blog) 2 11.

Definition comment_request (u : RequestUser) : Request :=
  mkRequest [] [("X-Requested-With", "XMLHttpRequest")] u.

Definition bob_form : CommentCreateForm :=
  mkForm "Nice post" (Some "Bob") (Some "bob@x.com") None.

Definition strftime (t : Z) : string := "1970-Jan-01 00:00:00".
Definition get_avatar (c : Comment) : string := "/static/avatar.png".
Definition profile_url (u : User) : string := ("/user/" ++ username u)%string.
Definition article_url (a : Article) : string := "/articles/".

Definition form_valid (kw : option Z) (req : Request) (form : CommentCreateForm) : M Response :=
  form_valid 0 strftime get_avatar profile_url article_url kw req form.

Definition reply_form : CommentCreateForm :=
  mkForm "Reply" (Some "Bob") (Some "bob@x.com") (Some 10).

Definition mallory_form : CommentCreateForm :=
  mkForm "Nice post" (Some "Mallory") (Some "mallory@x.com") None.

Definition alice_comment : Comment :=
  mkComment (Some 11) (Some 5) None (Some alice) (Some "alice")
    (Some "alice@x.com") "Nice post" (Some 0).

Definition alice_reply : Response :=
  JsonResponse
    [("is_child", JBool false); ("id", JInt 11); ("author", JStr "alice");
     ("parent_id", JNull); ("time_create", JStr "1970-Jan-01 00:00:00");
     ("avatar", JStr "/static/avatar.png"); ("content", JStr "Nice post");
     ("get_absolute_url", JStr "/user/alice")] 200.

Definition bob_comment : Comment :=
  mkComment (Some 11) (Some 5) None None (Some "Bob") (Some "bob@x.com")
    "Nice post" (Some 0).

Definition bob_reply : Response :=
  JsonResponse
    [("is_child", JBool false); ("id", JInt 11); ("author", JStr "Bob");
     ("parent_id", JNull); ("time_create", JStr "1970-Jan-01 00:00:00");
     ("avatar", JStr "/static/avatar.png"); ("content", JStr "Nice post");
     ("get_absolute_url", JStr "mailto:bob@x.com")] 200.

(** Ten articles tagged against article 1, which carries tags 1, 2, 3. *)
Definition tagged (k : Z) (ts : list Z) : Article := mkArticle k (list_to_set ts).

Definition library : DB :=
  mkDB [tagged 1 [1; 2; 3]; tagged 2 [1]; tagged 3 [1; 2]; tagged 4 [7];
        tagged 5 [1; 2; 3]; tagged 6 [3]; tagged 7 [2]; tagged 8 [1];
        tagged 9 [2; 3]; tagged 10 [9]]
       [] [] 1 1.

End Example.

Module Scenario.

Definition vote_up_other : Request :=
  Example.vote_request "10.0.0.2" "5" "1" AnonymousUser.
Definition vote_up_padded : Request :=
  Example.vote_request "10.0.0.1" " 05 " " +0_1 " AnonymousUser.
Definition vote_on_six : Request :=
  Example.vote_request "10.0.0.1" "6" "1" AnonymousUser.
Definition vote_on_seven : Request :=
  Example.vote_request "10.0.0.1" "7" "1" AnonymousUser.

Definition plain_request (u : RequestUser) : Request := mkRequest [] [] u.

Definition untagged : Article := mkArticle 99 ∅.
Definition article_five : Article := mkArticle 5 {[1; 2]}.
Definition reference : Article := Example.tagged 1 [1; 2; 3].
Definition top_ranked : Article := Example.tagged 5 [1; 2; 3].

Definition reply_comment : Comment :=
  mkComment (Some 11) (Some 5) (Some 10) None (Some "Bob") (Some "bob@x.com")
    "Reply" (Some 0).

Definition reply_data : dict :=
  [("is_child", JBool true); ("id", JInt 11); ("author", JStr "Bob");
   ("parent_id", JInt 10); ("time_create", JStr "1970-Jan-01 00:00:00");
   ("avatar", JStr "/static/avatar.png"); ("content", JStr "Reply");
   ("get_absolute_url", JStr "mailto:bob@x.com")].

Definition tag_table : list Tag :=
  [mkTag 1 "Rocq" "rocq"; mkTag 2 "Django" "django"].

End Scenario.

(** * Proofs *)

(** ** The monad *)

Lemma bind_ok {A B} (m : M A) (k : A → M B) db a db' :
  m db = (Ok a, db') → bind m k db = k a db'.
Proof. intros H. unfold bind. by rewrite H. Qed.

Lemma bind_raise {A B} (m : M A) (k : A → M B) db e db' :
  m db = (Raise e, db') → bind m k db = (Raise e, db').
Proof. intros H. unfold bind. by rewrite H. Qed.

(** ** Parsing *)

Example int_of_str_samples :
  int_of_str " +1_0 " = Some 10 ∧ int_of_str "-1" = Some (-1) ∧
  int_of_str "007" = Some 7 ∧ int_of_str "1_" = None ∧
  int_of_str "" = None ∧ int_of_str "up" = None ∧ int_of_str "+ 1" = None.
Proof. repeat split; reflexivity. Qed.

Lemma py_int_posted req v :
  posted_int "value" req = Some v →
  ∀ db, py_int (querydict_get "value" (POST req)) db = (Ok v, db).
Proof.
  unfold posted_int, py_int. intros H db.
  destruct (querydict_get "value" (POST req)) as [s|]; simpl in H; [|done].
  by rewrite H.
Qed.

(** ** Rows and sums *)

Lemma article_found a db :
  ORM.article_exists a db = true →
  ∃ i art, list_find (λ x, article_pk x = a) (articles db) = Some (i, art)
           ∧ article_pk art = a.
Proof.
  unfold ORM.article_exists. intros H%bool_decide_eq_true.
  apply list_elem_of_fmap in H as (art & -> & Hin).
  destruct (list_find (λ x, article_pk x = article_pk art) (articles db))
    as [[i x]|] eqn:E.
  - exists i, x. split; [done|]. by apply list_find_Some in E as (_ & ? & _).
  - apply list_find_None in E. rewrite Forall_forall in E. by specialize (E _ Hin).
Qed.

Lemma article_not_found a db :
  ORM.article_exists a db = false →
  list_find (λ x, article_pk x = a) (articles db) = None.
Proof.
  unfold ORM.article_exists. intros H%bool_decide_eq_false.
  apply list_find_None, Forall_forall. intros x Hx Hpk. apply H.
  rewrite <- Hpk. by apply list_elem_of_fmap_2.
Qed.

Lemma rating_rows_elem a ip db r :
  r ∈ ORM.rating_rows a ip db ↔
  r ∈ ratings db ∧ rating_article_id r = a ∧ rating_ip_address r = ip.
Proof. unfold ORM.rating_rows. rewrite list_elem_of_filter. tauto. Qed.

Lemma rating_rows_single a ip db r :
  ORM.rating_rows a ip db = [r] →
  r ∈ ratings db ∧ rating_article_id r = a ∧ rating_ip_address r = ip.
Proof. intros H. apply rating_rows_elem. rewrite H. by left. Qed.

Lemma rating_rows_add a ip r db :
  ORM.rating_rows a ip (add_rating r db) =
  ORM.rating_rows a ip db ++
  (if decide (rating_article_id r = a ∧ rating_ip_address r = ip)
   then [r] else []).
Proof. unfold ORM.rating_rows, add_rating. simpl. by rewrite filter_app. Qed.

Lemma rating_rows_remove a ip r db :
  ORM.rating_rows a ip (remove_rating r db) =
  filter (λ x, rating_pk x ≠ rating_pk r) (ORM.rating_rows a ip db).
Proof.
  unfold ORM.rating_rows, remove_rating. simpl.
  rewrite !list_filter_filter. apply list_filter_iff. tauto.
Qed.

Lemma replace_fresh (k : Z) (r : Rating) (l : list Rating) :
  Forall (λ x, rating_pk x ≠ k) l →
  (λ x, if bool_decide (rating_pk x = k) then r else x) <$> l = l.
Proof.
  induction 1 as [|x l Hx _ IH]; [done|].
  rewrite fmap_cons, IH. by rewrite bool_decide_eq_false_2.
Qed.

Lemma sum_values_app (l1 l2 : list Z) :
  sum_values (l1 ++ l2) = sum_values l1 + sum_values l2.
Proof. unfold sum_values. induction l1 as [|x l1 IH]; simpl; lia. Qed.

Lemma article_values_add a r db :
  article_values a (add_rating r db) =
  article_values a db ++
  (if decide (rating_article_id r = a) then [rating_value r] else []).
Proof.
  unfold article_values, add_rating. simpl. rewrite filter_app, fmap_app.
  f_equal. rewrite filter_cons, filter_nil. by destruct (decide _).
Qed.

Lemma filter_other_keys (k : Z) (l : list Rating) :
  k ∉ rating_pk <$> l → filter (λ x, rating_pk x ≠ k) l = l.
Proof.
  induction l as [|x l IH]; [done|]. rewrite fmap_cons, not_elem_of_cons.
  intros [Hx Hl]. rewrite filter_cons_True by done. by rewrite IH.
Qed.

Lemma article_values_remove a r db :
  NoDup (rating_pk <$> ratings db) → r ∈ ratings db →
  rating_article_id r = a →
  sum_values (article_values a (remove_rating r db)) =
  sum_values (article_values a db) - rating_value r.
Proof.
  unfold article_values, remove_rating. simpl.
  generalize (ratings db) as l. intros l Hnd Hin Ha.
  induction l as [|x l IH]; [by apply elem_of_nil in Hin|].
  rewrite fmap_cons in Hnd. apply NoDup_cons in Hnd as [Hx Hnd].
  apply elem_of_cons in Hin as [->|Hin].
  - rewrite filter_cons_False by (intros ?; done).
    rewrite (filter_other_keys _ l Hx).
    rewrite (filter_cons_True _ x l) by done.
    rewrite fmap_cons. unfold sum_values. simpl. lia.
  - assert (rating_pk x ≠ rating_pk r).
    { intros E. apply Hx. rewrite E. by apply list_elem_of_fmap_2. }
    rewrite (filter_cons_True _ x l) by done.
    rewrite !filter_cons. destruct (decide (rating_article_id x = a)).
    + rewrite !fmap_cons. unfold sum_values in *. simpl. rewrite IH by done. lia.
    + by apply IH.
Qed.

Lemma replace_other_keys (r' : Rating) (l : list Rating) :
  rating_pk r' ∉ rating_pk <$> l →
  (λ x, if bool_decide (rating_pk x = rating_pk r') then r' else x) <$> l = l.
Proof.
  intros H. apply replace_fresh, Forall_forall. intros x Hx E. apply H.
  rewrite <- E. by apply list_elem_of_fmap_2.
Qed.

Lemma article_values_replace a r r' db :
  NoDup (rating_pk <$> ratings db) → r ∈ ratings db →
  rating_pk r' = rating_pk r →
  rating_article_id r = a → rating_article_id r' = a →
  sum_values (article_values a (replace_rating r' db)) =
  sum_values (article_values a db) - rating_value r + rating_value r'.
Proof.
  unfold article_values, replace_rating. simpl.
  generalize (ratings db) as l. intros l Hnd Hin Hpk Ha Ha'.
  induction l as [|x l IH]; [by apply elem_of_nil in Hin|].
  rewrite fmap_cons in Hnd. apply NoDup_cons in Hnd as [Hx Hnd].
  rewrite fmap_cons.
  apply elem_of_cons in Hin as [->|Hin].
  - rewrite bool_decide_eq_true_2 by done.
    rewrite replace_other_keys by (by rewrite Hpk).
    rewrite !filter_cons_True by done.
    rewrite !fmap_cons. unfold sum_values. simpl. lia.
  - assert (rating_pk x ≠ rating_pk r').
    { intros E. apply Hx. rewrite E, Hpk. by apply list_elem_of_fmap_2. }
    rewrite bool_decide_eq_false_2 by done.
    rewrite !filter_cons. destruct (decide (rating_article_id x = a)).
    + rewrite !fmap_cons. unfold sum_values in *. simpl. rewrite IH by done. lia.
    + by apply IH.
Qed.

(** ** The rating table stays well formed *)

Lemma ratings_wf_fresh db : ratings_wf db → rating_seq_fresh db.
Proof.
  intros (_ & H & _). unfold rating_seq_fresh.
  eapply Forall_impl; [exact H|]. simpl. lia.
Qed.

Lemma add_rating_wf db a ip v u :
  ratings_wf db → ORM.rating_rows a ip db = [] →
  ratings_wf (add_rating (mkRating (rating_seq db) a ip v u) db).
Proof.
  intros (Hnd & Hlt & Hone) Hrows. split; [|split].
  - unfold add_rating. simpl. rewrite fmap_app. apply NoDup_app.
    split; [done|]. split; [|apply NoDup_singleton].
    intros k Hk Hk'. apply list_elem_of_singleton in Hk'. simpl in Hk'. subst k.
    apply list_elem_of_fmap in Hk as (r & Hr & Hin).
    rewrite Forall_forall in Hlt. specialize (Hlt r Hin). lia.
  - unfold add_rating. simpl. apply Forall_app. split.
    + eapply Forall_impl; [exact Hlt|]. simpl. lia.
    + constructor; [simpl; lia|constructor].
  - intros a' ip'. rewrite rating_rows_add. simpl.
    destruct (decide (a = a' ∧ ip = ip')) as [[-> ->]|_].
    + rewrite Hrows. simpl. lia.
    + rewrite length_app. simpl. specialize (Hone a' ip'). lia.
Qed.

Lemma skip_rating_key_wf db : ratings_wf db → ratings_wf (skip_rating_key db).
Proof.
  intros (Hnd & Hlt & Hone). split; [done|]. split; [|done].
  eapply Forall_impl; [exact Hlt|]. simpl. lia.
Qed.

Lemma remove_rating_wf db r : ratings_wf db → ratings_wf (remove_rating r db).
Proof.
  intros (Hnd & Hlt & Hone). split; [|split].
  - unfold remove_rating. simpl.
    eapply sublist_NoDup; [exact Hnd|]. apply fmap_sublist, sublist_filter.
  - unfold remove_rating. simpl. apply Forall_forall. intros x Hx.
    apply list_elem_of_filter in Hx as [_ Hx].
    rewrite Forall_forall in Hlt. by apply Hlt.
  - intros a ip. rewrite rating_rows_remove.
    etrans; [apply length_filter|apply Hone].
Qed.

Lemma replace_rating_wf db r v u :
  ratings_wf db → r ∈ ratings db →
  ratings_wf (replace_rating
                (mkRating (rating_pk r) (rating_article_id r)
                   (rating_ip_address r) v u) db).
Proof.
  intros (Hnd & Hlt & Hone) Hin.
  set (r' := mkRating _ _ _ _ _).
  set (f := λ x : Rating, if bool_decide (rating_pk x = rating_pk r') then r' else x).
  assert (Hpk : ∀ x, rating_pk (f x) = rating_pk x).
  { intros x. unfold f. case_bool_decide; [by symmetry|done]. }
  assert (Hkey : ∀ x, x ∈ ratings db →
            rating_article_id (f x) = rating_article_id x ∧
            rating_ip_address (f x) = rating_ip_address x).
  { intros x Hx. unfold f. case_bool_decide as E; [|done]. simpl in E.
    assert (x = r) as ->; [|done].
    apply list_elem_of_lookup in Hx as [i Hi], Hin as [j Hj].
    assert (i = j) as ->.
    { eapply NoDup_lookup; [exact Hnd| |];
        rewrite list_lookup_fmap; [by rewrite Hi|rewrite Hj; simpl; by rewrite E]. }
    congruence. }
  unfold replace_rating. fold f. split; [|split]; simpl.
  - rewrite <- list_fmap_compose.
    rewrite (list_fmap_ext (rating_pk ∘ f) rating_pk (ratings db)); [done|].
    intros i x _. apply Hpk.
  - apply Forall_fmap. eapply Forall_impl; [exact Hlt|].
    intros x Hx. simpl. by rewrite Hpk.
  - intros a ip. specialize (Hone a ip). unfold ORM.rating_rows in *. simpl.
    assert (filter (λ x, rating_article_id x = a ∧ rating_ip_address x = ip)
              (f <$> ratings db)
            = f <$> filter (λ x, rating_article_id x = a ∧ rating_ip_address x = ip)
                      (ratings db)) as ->; [|by rewrite length_fmap].
    clear Hone Hnd Hlt Hin. induction (ratings db) as [|x l IH]; [done|].
    rewrite fmap_cons.
    destruct (Hkey x ltac:(by left)) as [E1 E2].
    rewrite !filter_cons. rewrite E1, E2.
    destruct (decide _).
    + rewrite fmap_cons. f_equal. apply IH. intros y Hy. apply Hkey. by right.
    + apply IH. intros y Hy. apply Hkey. by right.
Qed.

(** ** RatingCreateView.post *)

Section RatingProofs.

Variable get_client_ip : Request → string.

(** The three paths of the view, each from the rows the voter has. *)

Lemma post_created req db a v :
  posted_int "article_id" req = Some a →
  posted_int "value" req = Some v →
  ORM.int4 v = true →
  ORM.article_exists a db = true →
  ORM.rating_rows a (get_client_ip req) db = [] →
  let user := session_user (request_user req) in
  let db' := add_rating (mkRating (rating_seq db) a (get_client_ip req) v user) db in
  post get_client_ip req db =
    (Ok (rating_reply "created" (sum_values (article_values a db'))), db').
Proof.
  intros Ha Hv Hr Hex Hrows user db'.
  unfold post. rewrite (bind_ok _ _ _ _ _ (py_int_posted _ _ Hv db)).
  unfold posted_int in Ha.
  destruct (querydict_get "article_id" (POST req)) as [s|]; simpl in Ha; [|done].
  unfold ORM.get_or_create. rewrite Ha.
  unfold bind at 1. unfold bind at 1. simpl. rewrite Hrows.
  unfold bind at 1. unfold ORM.create. unfold bind at 1. simpl. rewrite Hr, Hex. simpl.
  unfold ORM.article, bind, get_db, ret. simpl.
  destruct (article_found a db Hex) as (i & art & Hf & Hpk).
  rewrite Hf. simpl. by rewrite Hpk.
Qed.

Lemma post_deleted req db a v r :
  posted_int "article_id" req = Some a →
  posted_int "value" req = Some v →
  ORM.article_exists a db = true →
  ORM.rating_rows a (get_client_ip req) db = [r] →
  rating_value r = v →
  post get_client_ip req db =
    (Ok (rating_reply "deleted"
           (sum_values (article_values a (remove_rating r db)))),
     remove_rating r db).
Proof.
  intros Ha Hv Hex Hrows Hval.
  unfold post. rewrite (bind_ok _ _ _ _ _ (py_int_posted _ _ Hv db)).
  unfold posted_int in Ha.
  destruct (querydict_get "article_id" (POST req)) as [s|]; simpl in Ha; [|done].
  unfold ORM.get_or_create. rewrite Ha.
  unfold bind at 1. unfold bind at 1. simpl. rewrite Hrows.
  unfold ret at 1. simpl.
  rewrite Hval, Z.eqb_refl.
  destruct (rating_rows_single _ _ _ _ Hrows) as (_ & Hra & _).
  destruct (article_found a db Hex) as (i & art & Hf & Hpk).
  unfold ORM.delete, ORM.article, get_sum_rating, bind, get_db, put_db, ret. simpl.
  rewrite Hra, Hf. simpl. by rewrite Hpk.
Qed.

Lemma post_updated req db a v r :
  posted_int "article_id" req = Some a →
  posted_int "value" req = Some v →
  ORM.int4 v = true →
  ORM.article_exists a db = true →
  ORM.rating_rows a (get_client_ip req) db = [r] →
  rating_value r ≠ v →
  let r' := mkRating (rating_pk r) (rating_article_id r) (rating_ip_address r)
              v (session_user (request_user req)) in
  post get_client_ip req db =
    (Ok (rating_reply "updated"
           (sum_values (article_values a (replace_rating r' db)))),
     replace_rating r' db).
Proof.
  intros Ha Hv Hr Hex Hrows Hval r'.
  unfold post. rewrite (bind_ok _ _ _ _ _ (py_int_posted _ _ Hv db)).
  unfold posted_int in Ha.
  destruct (querydict_get "article_id" (POST req)) as [s|]; simpl in Ha; [|done].
  unfold ORM.get_or_create. rewrite Ha.
  unfold bind at 1. unfold bind at 1. simpl. rewrite Hrows.
  unfold ret at 1. simpl.
  apply Z.eqb_neq in Hval. rewrite Hval.
  destruct (rating_rows_single _ _ _ _ Hrows) as (Hin & Hra & _).
  destruct (article_found a db Hex) as (i & art & Hf & Hpk).
  unfold ORM.save, ORM.article, get_sum_rating, bind, get_db, put_db, ret. simpl.
  rewrite Hr. simpl.
  rewrite (bool_decide_eq_true_2 (rating_pk r ∈ rating_pk <$> ratings db)) by (apply list_elem_of_fmap_2; exact Hin).
  simpl. subst a. rewrite Hf. simpl. by rewrite Hpk.
Qed.

(** X1: a vote that carries an integer article id of an existing article
    and an integer value that fits the column, on a table with at most one
    row for the voter, always gets an answer, with one of the three status
    tags and the sum stored after it. *)
Lemma vote_succeeds req db a v :
  posted_int "article_id" req = Some a →
  posted_int "value" req = Some v →
  ORM.int4 v = true →
  ORM.article_exists a db = true →
  (length (ORM.rating_rows a (get_client_ip req) db) ≤ 1)%nat →
  ∃ status db',
    post get_client_ip req db =
      (Ok (rating_reply status (sum_values (article_values a db'))), db') ∧
    status ∈ ["created"; "deleted"; "updated"].
Proof.
  intros Ha Hv Hr Hex Hlen.
  destruct (ORM.rating_rows a (get_client_ip req) db) as [|r [|r2 rest]] eqn:Erows.
  - eexists _, _. split; [exact (post_created req db a v Ha Hv Hr Hex Erows)|].
    set_solver.
  - destruct (decide (rating_value r = v)) as [E|E].
    + eexists _, _. split; [exact (post_deleted req db a v r Ha Hv Hex Erows E)|].
      set_solver.
    + eexists _, _. split; [exact (post_updated req db a v r Ha Hv Hr Hex Erows E)|].
      set_solver.
  - simpl in Hlen. lia.
Qed.

(** C1: from the no-vote state for an (article, voter address) key, two
    successive votes with the same value answer "created" and then
    "deleted", and leave no rating row for that key. *)
Theorem vote_twice_same_value req1 req2 db a v :
  posted_int "article_id" req1 = Some a →
  posted_int "article_id" req2 = Some a →
  posted_int "value" req1 = Some v →
  posted_int "value" req2 = Some v →
  get_client_ip req2 = get_client_ip req1 →
  ORM.int4 v = true →
  ORM.article_exists a db = true →
  ORM.rating_rows a (get_client_ip req1) db = [] →
  ∃ r1 db1 r2 db2,
    post get_client_ip req1 db = (r1, db1) ∧
    post get_client_ip req2 db1 = (r2, db2) ∧
    reply_status r1 = Some (JStr "created") ∧
    reply_status r2 = Some (JStr "deleted") ∧
    ORM.rating_rows a (get_client_ip req1) db2 = [] ∧
    (rating_seq_fresh db → ratings db2 = ratings db).
Proof.
  intros Ha1 Ha2 Hv1 Hv2 Hip Hr Hex Hrows.
  pose proof (post_created req1 db a v Ha1 Hv1 Hr Hex Hrows) as H1.
  simpl in H1.
  set (new := mkRating (rating_seq db) a (get_client_ip req1) v (session_user (request_user req1))) in *.
  assert (Hrows1 : ORM.rating_rows a (get_client_ip req2) (add_rating new db) = [new]).
  { rewrite Hip, rating_rows_add, Hrows. simpl. by rewrite decide_True. }
  pose proof (post_deleted req2 (add_rating new db) a v new
                Ha2 Hv2 Hex Hrows1 eq_refl) as H2.
  eexists _, _, _, _. split; [exact H1|]. split; [exact H2|].
  split; [done|]. split; [done|]. split.
  - rewrite rating_rows_remove, <- Hip, Hrows1.
    by rewrite filter_cons_False by auto.
  - intros Hfresh. unfold remove_rating, add_rating. simpl.
    rewrite filter_app, filter_cons_False, filter_nil, app_nil_r by auto.
    apply filter_other_keys. intros (r & Hr' & Hin)%list_elem_of_fmap.
    unfold rating_seq_fresh in Hfresh. rewrite Forall_forall in Hfresh.
    by apply (Hfresh r Hin).
Qed.

(** C2: from the no-vote state, a vote of +1 followed by a vote of -1 from
    the same address answers "created" and then "updated", and leaves
    exactly one row for the key: its value is -1 and its user reference is
    that of the second request. *)
Theorem vote_up_then_down req1 req2 db a :
  posted_int "article_id" req1 = Some a →
  posted_int "article_id" req2 = Some a →
  posted_int "value" req1 = Some 1 →
  posted_int "value" req2 = Some (-1) →
  get_client_ip req2 = get_client_ip req1 →
  ORM.article_exists a db = true →
  ORM.rating_rows a (get_client_ip req1) db = [] →
  rating_seq_fresh db →
  ∃ r1 db1 r2 db2,
    post get_client_ip req1 db = (r1, db1) ∧
    post get_client_ip req2 db1 = (r2, db2) ∧
    reply_status r1 = Some (JStr "created") ∧
    reply_status r2 = Some (JStr "updated") ∧
    ORM.rating_rows a (get_client_ip req1) db1 =
      [mkRating (rating_seq db) a (get_client_ip req1) 1 (session_user (request_user req1))] ∧
    ORM.rating_rows a (get_client_ip req1) db2 =
      [mkRating (rating_seq db) a (get_client_ip req1) (-1) (session_user (request_user req2))].
Proof.
  intros Ha1 Ha2 Hv1 Hv2 Hip Hex Hrows Hfresh.
  pose proof (post_created req1 db a 1 Ha1 Hv1 eq_refl Hex Hrows) as H1.
  simpl in H1.
  set (new := mkRating (rating_seq db) a (get_client_ip req1) 1 (session_user (request_user req1))) in *.
  assert (Hrows1 : ORM.rating_rows a (get_client_ip req1) (add_rating new db) = [new]).
  { rewrite rating_rows_add, Hrows. simpl. by rewrite decide_True. }
  assert (Hrows1' : ORM.rating_rows a (get_client_ip req2) (add_rating new db) = [new])
    by (by rewrite Hip).
  pose proof (post_updated req2 (add_rating new db) a (-1) new
                Ha2 Hv2 eq_refl Hex Hrows1') as H2.
  simpl in H2. specialize (H2 ltac:(done)).
  eexists _, _, _, _. split; [exact H1|]. split; [exact H2|].
  split; [done|]. split; [done|]. split; [done|].
  unfold ORM.rating_rows, replace_rating. simpl.
  rewrite fmap_app, (replace_fresh _ _ (ratings db)) by done.
  rewrite filter_app.
  change (filter _ (ratings db)) with (ORM.rating_rows a (get_client_ip req1) db).
  rewrite Hrows. subst new. simpl.
  rewrite bool_decide_eq_true_2 by done.
  by rewrite filter_cons_True.
Qed.

(** Every answer of the view is one of these outcomes. *)
Lemma vote_answer_inv req db resp db' :
  post get_client_ip req db = (Ok resp, db') →
  ∃ a v status,
    posted_int "article_id" req = Some a ∧
    posted_int "value" req = Some v ∧
    resp = rating_reply status (sum_values (article_values a db')) ∧
    vote_outcome get_client_ip req db a v status db'.
Proof.
  intros H. pose proof H as H0. unfold post in H.
  destruct (posted_int "value" req) as [v|] eqn:Ev; cycle 1.
  { exfalso. unfold posted_int, py_int in *.
    destruct (querydict_get "value" (POST req)) as [s|]; simpl in Ev.
    - rewrite Ev in H. discriminate H.
    - discriminate H. }
  rewrite (bind_ok _ _ _ _ _ (py_int_posted _ _ Ev db)) in H.
  destruct (posted_int "article_id" req) as [a|] eqn:Ea; cycle 1.
  { exfalso. unfold posted_int, ORM.get_or_create in *.
    destruct (querydict_get "article_id" (POST req)) as [s|]; simpl in Ea.
    - rewrite Ea in H. discriminate H.
    - unfold ORM.refused_insert, bind, get_db, put_db, raise in H.
      destruct (ORM.int4 v); discriminate H. }
  exists a, v.
  assert (Hgoc : ORM.get_or_create (querydict_get "article_id" (POST req))
            (get_client_ip req) v (session_user (request_user req)) db =
          match ORM.rating_rows a (get_client_ip req) db with
          | [] => bind (ORM.create a (get_client_ip req) v (session_user (request_user req)))
                    (λ r, ret (r, true)) db
          | [r] => (Ok (r, false), db)
          | _ => (Raise MultipleObjectsReturned, db)
          end).
  { unfold posted_int, ORM.get_or_create in *.
    destruct (querydict_get "article_id" (POST req)) as [s|]; simpl in Ea; [|done].
    rewrite Ea. unfold bind at 1. simpl.
    by destruct (ORM.rating_rows a (get_client_ip req) db) as [|r [|??]]. }
  unfold vote_outcome.
  destruct (ORM.rating_rows a (get_client_ip req) db) as [|r [|r2 rest]] eqn:Erows.
  - (* no row yet: created *)
    destruct (ORM.int4 v) eqn:Hr; cycle 1.
    { exfalso. unfold bind at 1 in H. fold (session_user (request_user req)) in H.
      rewrite Hgoc in H. unfold ORM.create, bind, get_db in H. simpl in H.
      rewrite Hr in H. discriminate H. }
    destruct (ORM.article_exists a db) eqn:Hex; cycle 1.
    { exfalso. unfold bind at 1 in H. fold (session_user (request_user req)) in H.
      rewrite Hgoc in H. unfold ORM.create, bind, get_db in H. simpl in H.
      rewrite Hr, Hex in H.
      unfold ORM.refused_insert, bind, get_db, put_db, raise in H.
      discriminate H. }
    rewrite (post_created req db a v Ea Ev Hr Hex Erows) in H0.
    injection H0 as <- <-. exists "created". repeat split; try done.
    rewrite article_values_add. simpl. rewrite decide_True by done.
    rewrite sum_values_app. simpl. lia.
  - (* one row *)
    destruct (rating_rows_single _ _ _ _ Erows) as (Hin & Hra & Hrip).
    destruct (ORM.article_exists a db) eqn:Hex; cycle 1.
    { exfalso. apply article_not_found in Hex.
      unfold bind at 1 in H. fold (session_user (request_user req)) in H. rewrite Hgoc in H.
      simpl in H.
      destruct (rating_value r =? v)%Z;
        unfold ORM.delete, ORM.save, ORM.article, bind, get_db, put_db in H;
        simpl in H; repeat case_match; simplify_eq; simpl in *;
        rewrite ?Hra, Hex in *; simplify_eq. }
    destruct (decide (rating_value r = v)) as [Hv|Hv].
    + rewrite (post_deleted req db a v r Ea Ev Hex Erows Hv) in H0.
      injection H0 as <- <-. exists "deleted". repeat split; try done.
      * unfold remove_rating. simpl. rewrite list_elem_of_filter. tauto.
      * intros Hnd. rewrite <- Hv. by apply article_values_remove.
    + destruct (ORM.int4 v) eqn:Hr; cycle 1.
      { exfalso. unfold bind at 1 in H. fold (session_user (request_user req)) in H.
        rewrite Hgoc in H. simpl in H.
        apply Z.eqb_neq in Hv. rewrite Hv in H.
        unfold ORM.save, bind, get_db in H. simpl in H. rewrite Hr in H.
        discriminate H. }
      pose proof (post_updated req db a v r Ea Ev Hr Hex Erows Hv) as Hu.
      simpl in Hu. rewrite Hu in H0. rewrite Hra, Hrip in H0.
      injection H0 as <- <-. exists "updated". repeat split; try done.
      * unfold replace_rating. simpl. apply list_elem_of_fmap.
        exists r. split; [|done]. by rewrite bool_decide_eq_true_2.
      * intros Hnd. by rewrite (article_values_replace a r _ db).
  - exfalso. unfold bind at 1 in H. fold (session_user (request_user req)) in H.
    rewrite Hgoc in H. discriminate H.
Qed.

(** C3: a vote (an integer article id of an existing article, an integer
    value that fits the column, at most one row for the voter) returns, in
    each of its three outcomes, its status tag together with the sum of the
    values stored for the article after the mutation: a created vote adds
    its value, a deleted row is no longer stored and its value is
    subtracted, an updated row counts with its new value. *)
Theorem vote_returns_fresh_sum req db a v :
  posted_int "article_id" req = Some a →
  posted_int "value" req = Some v →
  ORM.int4 v = true →
  ORM.article_exists a db = true →
  (length (ORM.rating_rows a (get_client_ip req) db) ≤ 1)%nat →
  ∃ status db',
    post get_client_ip req db =
      (Ok (rating_reply status (sum_values (article_values a db'))), db') ∧
    vote_outcome get_client_ip req db a v status db'.
Proof.
  intros Ha Hv Hr Hex Hlen.
  assert (∃ status db',
            post get_client_ip req db =
              (Ok (rating_reply status (sum_values (article_values a db'))), db'))
    as (status & db' & Hp).
  { destruct (ORM.rating_rows a (get_client_ip req) db) as [|r [|r2 rest]] eqn:Erows.
    - eexists _, _. exact (post_created req db a v Ha Hv Hr Hex Erows).
    - destruct (decide (rating_value r = v)) as [E|E].
      + eexists _, _. exact (post_deleted req db a v r Ha Hv Hex Erows E).
      + eexists _, _. exact (post_updated req db a v r Ha Hv Hr Hex Erows E).
    - simpl in Hlen. lia. }
  exists status, db'. split; [exact Hp|].
  destruct (vote_answer_inv req db _ db' Hp)
    as (a' & v' & status' & Ha' & Hv' & Hresp & Hout).
  rewrite Ha in Ha'. rewrite Hv in Hv'.
  injection Ha' as <-. injection Hv' as <-.
  unfold rating_reply in Hresp. injection Hresp as Hst. by rewrite Hst.
Qed.

Lemma post_never_validation_error req db e db' :
  post get_client_ip req db = (Raise e, db') → e ≠ ValidationError.
Proof.
  unfold post, py_int, ORM.get_or_create, ORM.create, ORM.refused_insert,
    ORM.delete, ORM.save, ORM.article, get_sum_rating, bind, get_db, put_db,
    ret, raise.
  intros H. repeat (case_match; simplify_eq/=); done.
Qed.

(** Whatever the outcome, the store is left as it was or changed by one
    insertion, one deletion or one update of the voter's row. *)
Lemma post_store_cases req db res db' :
  post get_client_ip req db = (res, db') →
  (db' = db ∨ db' = skip_rating_key db) ∨
  (∃ a v, ORM.rating_rows a (get_client_ip req) db = [] ∧
          db' = add_rating (mkRating (rating_seq db) a (get_client_ip req) v
                              (session_user (request_user req))) db) ∨
  (∃ a r, ORM.rating_rows a (get_client_ip req) db = [r] ∧
          db' = remove_rating r db) ∨
  (∃ a r v, ORM.rating_rows a (get_client_ip req) db = [r] ∧
            db' = replace_rating
                    (mkRating (rating_pk r) (rating_article_id r)
                       (rating_ip_address r) v
                       (session_user (request_user req))) db).
Proof.
  unfold post, py_int, ORM.get_or_create, ORM.create, ORM.refused_insert,
    ORM.delete, ORM.save, ORM.article, get_sum_rating, bind, get_db, put_db,
    ret, raise.
  intros H.
  repeat (case_match; simplify_eq/=); eauto 10.
  all: try (by left; right).
  all: exfalso;
    match goal with
    | Hrows : ORM.rating_rows _ _ _ = [_],
      Hpk : bool_decide _ = false |- _ =>
        apply rating_rows_single in Hrows as (Hin & _);
        apply bool_decide_eq_false in Hpk; apply Hpk;
        by apply list_elem_of_fmap_2
    end.
Qed.

(** The view maintains the well-formedness of the rating table, in
    particular the rule of one row per article and voter address. *)
Theorem post_preserves_wf req db res db' :
  ratings_wf db → post get_client_ip req db = (res, db') → ratings_wf db'.
Proof.
  intros Hwf H.
  apply post_store_cases in H
    as [[-> | ->]|[(a & v & Hrows & ->)|[(a & r & Hrows & ->)|(a & r & v & Hrows & ->)]]].
  - done.
  - by apply skip_rating_key_wf.
  - by apply add_rating_wf.
  - by apply remove_rating_wf.
  - apply replace_rating_wf; [done|].
    by apply rating_rows_single in Hrows as (? & _).
Qed.

(** C6, as the code has it: the view never raises ValidationError; a missing
    value raises TypeError and a text that is not an integer raises
    ValueError, both with the store untouched; every integer that fits the
    column, +1 and -1 or any other, is taken and stored by a first vote. *)
Theorem vote_value_parsing req db :
  (∀ e db', post get_client_ip req db = (Raise e, db') → e ≠ ValidationError) ∧
  match querydict_get "value" (POST req) with
  | None => post get_client_ip req db = (Raise TypeError, db)
  | Some s =>
      match int_of_str s with
      | None => post get_client_ip req db = (Raise ValueError, db)
      | Some v =>
          ∀ a,
            posted_int "article_id" req = Some a →
            ORM.int4 v = true →
            ORM.article_exists a db = true →
            ORM.rating_rows a (get_client_ip req) db = [] →
            ∃ s' db',
              post get_client_ip req db = (Ok (rating_reply "created" s'), db') ∧
              ORM.rating_rows a (get_client_ip req) db' =
                [mkRating (rating_seq db) a (get_client_ip req) v
                   (session_user (request_user req))]
      end
  end.
Proof.
  split; [apply post_never_validation_error|].
  destruct (querydict_get "value" (POST req)) as [s|] eqn:Es.
  - destruct (int_of_str s) as [v|] eqn:Ev.
    + intros a Ha Hr Hex Hrows.
      assert (Hv : posted_int "value" req = Some v).
      { unfold posted_int. rewrite Es. exact Ev. }
      eexists _, _. split.
      * exact (post_created req db a v Ha Hv Hr Hex Hrows).
      * rewrite rating_rows_add, Hrows. simpl. by rewrite decide_True.
    + unfold post, py_int, bind, raise. by rewrite Es, Ev.
  - unfold post, py_int, bind, raise. by rewrite Es.
Qed.

End RatingProofs.

(** The hypotheses of C1 hold for an anonymous voter on article 5. *)
Lemma vote_twice_same_value_witness :
  ∃ r1 db1 r2 db2,
    post Example.client_ip Example.vote_up Example.blog = (r1, db1) ∧
    post Example.client_ip Example.vote_up db1 = (r2, db2) ∧
    reply_status r1 = Some (JStr "created") ∧
    reply_status r2 = Some (JStr "deleted") ∧
    ORM.rating_rows 5 (Example.client_ip Example.vote_up) db2 = [] ∧
    (rating_seq_fresh Example.blog → ratings db2 = ratings Example.blog).
Proof.
  apply (vote_twice_same_value Example.client_ip Example.vote_up
           Example.vote_up Example.blog 5 1);
    reflexivity.
Defined.

(** The hypotheses of C2 hold when the second vote comes from a logged-in
    session at the same address. *)
Lemma vote_up_then_down_witness :
  ∃ r1 db1 r2 db2,
    post Example.client_ip Example.vote_up Example.blog = (r1, db1) ∧
    post Example.client_ip Example.vote_down_alice db1 = (r2, db2) ∧
    reply_status r1 = Some (JStr "created") ∧
    reply_status r2 = Some (JStr "updated") ∧
    ORM.rating_rows 5 (Example.client_ip Example.vote_up) db1 =
      [mkRating 1 5 "10.0.0.1" 1 None] ∧
    ORM.rating_rows 5 (Example.client_ip Example.vote_up) db2 =
      [mkRating 1 5 "10.0.0.1" (-1) (Some Example.alice)].
Proof.
  apply (vote_up_then_down Example.client_ip Example.vote_up
           Example.vote_down_alice Example.blog 5);
    try reflexivity.
  constructor.
Defined.

(** The hypotheses of C3 hold when the voter repeats the vote already
    stored: the row is deleted and the sum returned is the one after it. *)
Lemma vote_returns_fresh_sum_witness :
  ∃ status db',
    post Example.client_ip Example.vote_up Example.blog_voted =
      (Ok (rating_reply status (sum_values (article_values 5 db'))), db') ∧
    vote_outcome Example.client_ip Example.vote_up Example.blog_voted 5 1
      status db'.
Proof.
  apply (vote_returns_fresh_sum Example.client_ip Example.vote_up
           Example.blog_voted 5 1);
    reflexivity.
Defined.

(** The three outcomes on article 5, each with the sum after it. *)
Example vote_three_outcomes :
  (post Example.client_ip Example.vote_up Example.blog).1
    = Ok (rating_reply "created" 1) ∧
  (post Example.client_ip Example.vote_up Example.blog_voted).1
    = Ok (rating_reply "deleted" 0) ∧
  (post Example.client_ip Example.vote_down_alice Example.blog_voted).1
    = Ok (rating_reply "updated" (-1)).
Proof. repeat split; reflexivity. Qed.

(** The scenario of three voters: +1, +1 and -1 on one article sum to 1. *)
Example aggregate_of_three_votes :
  ((post Example.client_ip (Example.vote_request "10.0.0.1" "5" "1" AnonymousUser) ;;;
    post Example.client_ip (Example.vote_request "10.0.0.2" "5" "1" AnonymousUser) ;;;
    post Example.client_ip (Example.vote_request "10.0.0.3" "5" "-1" AnonymousUser))
     Example.blog).1
  = Ok (rating_reply "created" 1).
Proof. reflexivity. Qed.

(** A vote of 5 is stored: the claim C6 fails at this request. *)
Lemma vote_value_five_accepted :
  ¬ value_checked_at Example.client_ip Example.vote_five Example.blog.
Proof.
  intros H. destruct (H 5) as [H1 _]; [reflexivity|lia|lia|].
  vm_compute in H1. discriminate H1.
Qed.

Example vote_value_five_row :
  post Example.client_ip Example.vote_five Example.blog
  = (Ok (rating_reply "created" 5),
     add_rating (mkRating 1 5 "10.0.0.1" 5 None) Example.blog).
Proof. reflexivity. Qed.

Lemma vote_value_parsing_witness :
  ∃ s' db',
    post Example.client_ip Example.vote_five Example.blog
    = (Ok (rating_reply "created" s'), db') ∧
    ORM.rating_rows 5 "10.0.0.1" db' = [mkRating 1 5 "10.0.0.1" 5 None].
Proof.
  apply (proj2 (vote_value_parsing Example.client_ip Example.vote_five
                  Example.blog) 5);
    reflexivity.
Defined.

(** ** CommentCreateView.form_valid *)

Lemma save_ok now c db :
  parent_known c db = true → article_known c db = true →
  CommentORM.save now c db = (Ok (stored now db c), add_comment (stored now db c) db).
Proof.
  unfold parent_known, article_known, CommentORM.save, CommentORM.insert,
    bind, get_db, put_db, ret, stored, add_comment.
  intros Hp Ha. simpl.
  destruct (comment_article_id c) as [a|] eqn:Ea; [|done].
  destruct (comment_parent_id c) as [p|] eqn:Ep; rewrite ?Hp; simpl;
    by rewrite Ha.
Qed.

(** A refused save: a cited parent that does not exist stops the call
    before the insert; otherwise the insert is refused and its key lost. *)
Lemma save_raises now c db :
  parent_known c db && article_known c db = false →
  ∃ e, e ≠ ValidationError ∧
       CommentORM.save now c db =
         (Raise e, if parent_known c db then skip_comment_key db else db).
Proof.
  unfold parent_known, article_known, CommentORM.save, CommentORM.insert,
    CommentORM.refused_insert, bind, get_db, put_db, raise, skip_comment_key.
  intros H. simpl.
  destruct (comment_parent_id c) as [p|].
  - destruct (CommentORM.comment_exists p db); simpl in H |- *.
    + destruct (comment_article_id c) as [a|]; [|by exists IntegrityError].
      rewrite H. by exists IntegrityError.
    + by exists DoesNotExist.
  - simpl in H. destruct (comment_article_id c) as [a|]; [|by exists IntegrityError].
    rewrite H. by exists IntegrityError.
Qed.

Section CommentProofs.

Variable now : Z.
Variable strftime : Z → string.
Variable get_avatar : Comment → string.
Variable profile_get_absolute_url : User → string.
Variable article_get_absolute_url : Article → string.

Local Abbreviation form_valid' :=
  (form_valid now strftime get_avatar profile_get_absolute_url
     article_get_absolute_url).
Local Abbreviation reply_to' :=
  (reply_to strftime get_avatar profile_get_absolute_url
     article_get_absolute_url).

Lemma form_valid_steps kw req form :
  form_valid' kw req form =
  bind (CommentORM.save now (submitted kw req form)) (reply_to' req).
Proof. unfold form_valid, submitted, reply_to. by destruct (request_user req). Qed.

Lemma reply_to_ok req c db :
  comment_author c = session_user (request_user req) →
  article_known c db = true →
  ∃ resp, reply_to' req c db = (Ok resp, db).
Proof.
  unfold reply_to, article_known. intros Hau Hart.
  destruct (is_ajax req).
  - rewrite Hau. destruct (request_user req); simpl; eauto.
  - unfold CommentORM.article, bind, get_db. simpl.
    destruct (comment_article_id c) as [a|]; [|done].
    destruct (article_found a db Hart) as (i & art & -> & _). simpl. eauto.
Qed.

Lemma form_valid_ok kw req form db :
  parent_known (submitted kw req form) db = true →
  article_known (submitted kw req form) db = true →
  let c := stored now db (submitted kw req form) in
  ∃ resp, form_valid' kw req form db = (Ok resp, add_comment c db)
          ∧ reply_to' req c (add_comment c db) = (Ok resp, add_comment c db).
Proof.
  intros Hp Ha c. rewrite form_valid_steps.
  rewrite (bind_ok _ _ _ _ _ (save_ok now _ db Hp Ha)). fold c.
  destruct (reply_to_ok req c (add_comment c db)) as [resp Hr]; [done|done|].
  exists resp. by rewrite Hr.
Qed.

Lemma form_valid_raises kw req form db :
  parent_known (submitted kw req form) db
    && article_known (submitted kw req form) db = false →
  ∃ e, e ≠ ValidationError ∧
       form_valid' kw req form db =
         (Raise e, if parent_known (submitted kw req form) db
                   then skip_comment_key db else db).
Proof.
  intros H. destruct (save_raises now _ db H) as (e & He & Hs).
  exists e. split; [done|]. rewrite form_valid_steps.
  by rewrite (bind_raise _ _ _ _ _ Hs).
Qed.

Lemma form_valid_inv kw req form db resp db' :
  form_valid' kw req form db = (Ok resp, db') →
  db' = add_comment (stored now db (submitted kw req form)) db ∧
  parent_known (submitted kw req form) db = true ∧
  article_known (submitted kw req form) db = true ∧
  reply_to' req (stored now db (submitted kw req form)) db' = (Ok resp, db').
Proof.
  intros H.
  destruct (parent_known (submitted kw req form) db
              && article_known (submitted kw req form) db) eqn:E.
  - apply andb_true_iff in E as [Hp Ha].
    destruct (form_valid_ok kw req form db Hp Ha) as (resp' & Hf & Hr).
    rewrite Hf in H. injection H as -> <-. done.
  - destruct (form_valid_raises kw req form db E) as (e & _ & Hf).
    rewrite Hf in H. discriminate H.
Qed.


(** C5, as the code has it: a submission that cites a parent is stored, with
    the cited parent id and the article of the URL, whenever the cited
    comment exists, whatever article it is on; when it does not exist the
    call raises (never ValidationError) and the store is unchanged. *)
Theorem comment_parent_stored kw req form db p a :
  cleaned_parent form = Some p →
  kw = Some a →
  ORM.article_exists a db = true →
  if CommentORM.comment_exists p db
  then ∃ resp c,
         form_valid now strftime get_avatar profile_get_absolute_url
      article_get_absolute_url kw req form db = (Ok resp, add_comment c db) ∧
         comment_parent_id c = Some p ∧ comment_article_id c = Some a
  else ∃ e, e ≠ ValidationError ∧ form_valid now strftime get_avatar profile_get_absolute_url
      article_get_absolute_url kw req form db = (Raise e, db).
Proof.
  intros Hp -> Ha.
  destruct (CommentORM.comment_exists p db) eqn:E.
  - destruct (form_valid_ok (Some a) req form db) as (resp & Hf & _).
    + unfold parent_known. simpl. by rewrite Hp.
    + done.
    + eexists _, _. split; [exact Hf|]. done.
  - destruct (form_valid_raises (Some a) req form db) as (e & He & Hf).
    + unfold parent_known. simpl. by rewrite Hp, E.
    + unfold parent_known in Hf. simpl in Hf. rewrite Hp, E in Hf. eauto.
Qed.

(** C8: an asynchronous anonymous submission stores the submitted name and
    email with no author reference and the parent it was given (none when
    none was given), and answers the link "mailto:" followed by the email;
    an authenticated one answers the author's profile link. *)
Theorem ajax_reply_contact_url kw req form db a :
  kw = Some a →
  ORM.article_exists a db = true →
  parent_known (submitted kw req form) db = true →
  is_ajax req = true →
  ∃ data c,
    form_valid now strftime get_avatar profile_get_absolute_url
      article_get_absolute_url kw req form db = (Ok (JsonResponse data 200), add_comment c db) ∧
    comment_article_id c = Some a ∧
    comment_parent_id c = cleaned_parent form ∧
    match request_user req with
    | AnonymousUser =>
        comment_author c = None ∧
        comment_name c = cleaned_name form ∧
        comment_email c = cleaned_email form ∧
        dict_get "get_absolute_url" data =
          Some (JStr ("mailto:" ++ format_opt (cleaned_email form))%string)
    | LoggedIn u =>
        comment_author c = Some u ∧
        dict_get "get_absolute_url" data = Some (JStr (profile_get_absolute_url u))
    end.
Proof.
  intros -> Ha Hp Hajax.
  destruct (form_valid_ok (Some a) req form db Hp Ha) as (resp & Hf & Hr).
  unfold reply_to in Hr. rewrite Hajax in Hr.
  unfold stored, submitted in Hf, Hr. simpl in Hf, Hr.
  destruct (request_user req) as [|u]; simpl in Hr;
    injection Hr as <-; eexists _, _; (split; [exact Hf|]); done.
Qed.

(** C10: for an authenticated submission the name and email of the form are
    ignored: two forms that agree on content and parent give the same
    outcome and the same store, and the stored author, name and email are
    those of the session user. *)
Theorem authenticated_ignores_form_identity kw req form1 form2 db u :
  request_user req = LoggedIn u →
  cleaned_content form1 = cleaned_content form2 →
  cleaned_parent form1 = cleaned_parent form2 →
  form_valid now strftime get_avatar profile_get_absolute_url
    article_get_absolute_url kw req form1 db
  = form_valid now strftime get_avatar profile_get_absolute_url
      article_get_absolute_url kw req form2 db ∧
  ∀ resp db',
    form_valid now strftime get_avatar profile_get_absolute_url
      article_get_absolute_url kw req form1 db = (Ok resp, db') →
    ∃ c, comments db' = comments db ++ [c] ∧
         comment_author c = Some u ∧
         comment_name c = Some (username u) ∧
         comment_email c = Some (user_email u).
Proof.
  intros Hu Hc Hp. split.
  - rewrite !form_valid_steps. unfold submitted. by rewrite Hu, Hc, Hp.
  - intros resp db' H. apply form_valid_inv in H as (-> & _ & _ & _).
    eexists. split; [reflexivity|].
    unfold stored, submitted. simpl. by rewrite Hu.
Qed.

End CommentProofs.

(** The scenario of the anonymous comment by Bob on article 5. *)
Example bob_comment_scenario :
  Example.form_valid (Some 5) (Example.comment_request AnonymousUser)
    Example.bob_form Example.blog
  = (Ok Example.bob_reply, add_comment Example.bob_comment Example.blog).
Proof. reflexivity. Qed.

Example alice_comment_scenario :
  Example.form_valid (Some 5) (Example.comment_request (LoggedIn Example.alice))
    Example.bob_form Example.blog
  = (Ok Example.alice_reply, add_comment Example.alice_comment Example.blog).
Proof. reflexivity. Qed.



(** A reply on article 5 to comment 10, which is on article 6, is stored:
    the claim C5 fails at this submission. *)
Lemma foreign_parent_accepted :
  ¬ parent_checked_at 0 Example.strftime Example.get_avatar
      Example.profile_url Example.article_url (Some 5)
      (Example.comment_request AnonymousUser) Example.reply_form Example.blog.
Proof.
  intros H.
  destruct (H 5 10 (mkComment (Some 10) (Some 6) None None (Some "Ann")
                      (Some "ann@x.com") "First" (Some 0)))
    as [H1 _]; [reflexivity|reflexivity|by left|reflexivity|discriminate|].
  vm_compute in H1. discriminate H1.
Qed.

Example foreign_parent_row :
  (Example.form_valid (Some 5) (Example.comment_request AnonymousUser)
     Example.reply_form Example.blog).2
  = add_comment
      (mkComment (Some 11) (Some 5) (Some 10) None (Some "Bob")
         (Some "bob@x.com") "Reply" (Some 0))
      Example.blog.
Proof. reflexivity. Qed.

Lemma comment_parent_stored_witness :
  if CommentORM.comment_exists 10 Example.blog
  then ∃ resp c,
         Example.form_valid (Some 5) (Example.comment_request AnonymousUser)
           Example.reply_form Example.blog
         = (Ok resp, add_comment c Example.blog) ∧
         comment_parent_id c = Some 10 ∧ comment_article_id c = Some 5
  else ∃ e, e ≠ ValidationError ∧
         Example.form_valid (Some 5) (Example.comment_request AnonymousUser)
           Example.reply_form Example.blog
         = (Raise e, Example.blog).
Proof.
  apply (comment_parent_stored 0 Example.strftime Example.get_avatar
           Example.profile_url Example.article_url (Some 5)
           (Example.comment_request AnonymousUser) Example.reply_form
           Example.blog 10 5);
    reflexivity.
Defined.

Lemma ajax_reply_contact_url_witness :
  ∃ data c,
    Example.form_valid (Some 5) (Example.comment_request AnonymousUser)
      Example.bob_form Example.blog
    = (Ok (JsonResponse data 200), add_comment c Example.blog) ∧
    comment_article_id c = Some 5 ∧
    comment_parent_id c = None ∧
    comment_author c = None ∧
    comment_name c = Some "Bob" ∧
    comment_email c = Some "bob@x.com" ∧
    dict_get "get_absolute_url" data = Some (JStr "mailto:bob@x.com").
Proof.
  apply (ajax_reply_contact_url 0 Example.strftime Example.get_avatar
           Example.profile_url Example.article_url (Some 5)
           (Example.comment_request AnonymousUser) Example.bob_form
           Example.blog 5);
    reflexivity.
Defined.

Lemma authenticated_ignores_form_identity_witness :
  Example.form_valid (Some 5) (Example.comment_request (LoggedIn Example.alice))
    Example.bob_form Example.blog
  = Example.form_valid (Some 5) (Example.comment_request (LoggedIn Example.alice))
      Example.mallory_form Example.blog ∧
  ∀ resp db',
    Example.form_valid (Some 5) (Example.comment_request (LoggedIn Example.alice))
      Example.bob_form Example.blog = (Ok resp, db') →
    ∃ c, comments db' = comments Example.blog ++ [c] ∧
         comment_author c = Some Example.alice ∧
         comment_name c = Some "alice" ∧
         comment_email c = Some "alice@x.com".
Proof.
  apply (authenticated_ignores_form_identity 0 Example.strftime
           Example.get_avatar Example.profile_url Example.article_url (Some 5)
           (Example.comment_request (LoggedIn Example.alice))
           Example.bob_form Example.mallory_form Example.blog Example.alice);
    reflexivity.
Defined.

(** ** random.shuffle *)

Section ShuffleProofs.

Context {A : Type}.
Implicit Types x y : list A.

Lemma swap_length i j x : length (Random.swap i j x) = length x.
Proof.
  unfold Random.swap. destruct (x !! i), (x !! j); try done.
  by rewrite !length_insert.
Qed.

Lemma swap_perm i j x : Random.swap i j x ≡ₚ x.
Proof.
  unfold Random.swap.
  destruct (x !! i) as [a|] eqn:Hi; [|done].
  destruct (x !! j) as [b|] eqn:Hj; [|done].
  by apply Permutation_insert_swap.
Qed.

Lemma shuffle_from_S i d draws x :
  Random.shuffle_from (S i) (d :: draws) x =
  Random.shuffle_from i draws (Random.swap (S i) (d `mod` (S i + 1))%nat x).
Proof. reflexivity. Qed.

Lemma shuffle_from_perm i draws x : Random.shuffle_from i draws x ≡ₚ x.
Proof.
  revert draws x. induction i as [|i IH]; intros draws x; simpl; [done|].
  by rewrite IH, swap_perm.
Qed.

Lemma shuffle_perm draws x : Random.shuffle draws x ≡ₚ x.
Proof. apply shuffle_from_perm. Qed.

(** The loop can produce any arrangement: positions above [i] already
    agree with the target [y], and the draw at [i] fetches the element the
    target has there. *)
Lemma shuffle_from_reaches i x y :
  length x = length y →
  (i < length x)%nat →
  take (S i) x ≡ₚ take (S i) y →
  drop (S i) x = drop (S i) y →
  ∃ draws, Random.shuffle_from i draws x = y.
Proof.
  revert x. induction i as [|i IH]; intros x Hlen Hi Hperm Hdrop.
  - exists []. simpl.
    destruct x as [|a x], y as [|b y]; simplify_eq/=; [lia|].
    apply Permutation_singleton_inj in Hperm. by subst.
  - destruct (lookup_lt_is_Some_2 y (S i)) as [b Hb]; [lia|].
    destruct (lookup_lt_is_Some_2 x (S i)) as [a Ha]; [lia|].
    assert (Hbx : b ∈ take (S (S i)) x).
    { rewrite Hperm. apply elem_of_take. exists (S i). split; [done|lia]. }
    apply elem_of_take in Hbx as (j & Hj & Hlt).
    set (x' := Random.swap (S i) j x).
    assert (Hx' : x' = <[S i:=b]> (<[j:=a]> x)).
    { unfold x', Random.swap. by rewrite Ha, Hj. }
    assert (Hlen' : length x' = length x) by apply swap_length.
    assert (Hx'b : x' !! S i = Some b).
    { rewrite Hx'. apply list_lookup_insert_eq. rewrite length_insert. lia. }
    assert (Hdrop' : drop (S (S i)) x' = drop (S (S i)) x).
    { rewrite Hx'. by rewrite !drop_insert_lt by lia. }
    assert (Htake' : take (S (S i)) x' ≡ₚ take (S (S i)) x).
    { apply (Permutation_app_inv_r (drop (S (S i)) x)).
      rewrite <- Hdrop' at 1. rewrite !take_drop. apply swap_perm. }
    destruct (IH x') as [draws Hd]; [lia|lia| | |].
    + apply (Permutation_app_inv_r [b]).
      rewrite <- (take_S_r x' (S i) b), <- (take_S_r y (S i) b) by done.
      by rewrite Htake'.
    + rewrite (drop_S x' b (S i)), (drop_S y b (S i)) by done.
      by rewrite Hdrop', Hdrop.
    + exists (j :: draws).
      rewrite shuffle_from_S, Nat.mod_small by lia. exact Hd.
Qed.

Lemma shuffle_reaches x y : y ≡ₚ x → ∃ draws, Random.shuffle draws x = y.
Proof.
  intros Hperm. unfold Random.shuffle.
  pose proof (Permutation_length Hperm) as Hlen.
  destruct x as [|a x].
  { apply Permutation_nil_r in Hperm. subst. by exists []. }
  apply shuffle_from_reaches; [done|simpl; lia| |].
  - by rewrite !take_ge by (simpl in *; lia).
  - by rewrite !drop_ge by (simpl in *; lia).
Qed.

End ShuffleProofs.

(** ** order_by *)

Section RankingProofs.

Variable key : Article → nat.

Lemma insert_desc_perm a l : insert_desc key a l ≡ₚ a :: l.
Proof.
  induction l as [|y l IH]; simpl; [done|].
  destruct (key y <=? key a)%nat; [done|].
  by rewrite IH, Permutation_swap.
Qed.

Lemma order_by_desc_perm l : order_by_desc key l ≡ₚ l.
Proof.
  induction l as [|a l IH]; simpl; [done|].
  by rewrite insert_desc_perm, IH.
Qed.

Lemma insert_desc_sorted a l :
  StronglySorted (outranks key) l →
  StronglySorted (outranks key) (insert_desc key a l).
Proof.
  induction 1 as [|y l Hs IH Hall]; simpl.
  - repeat constructor.
  - destruct (key y <=? key a)%nat eqn:E.
    + apply Nat.leb_le in E. constructor; [by constructor|].
      constructor; [done|].
      eapply Forall_impl; [exact Hall|]. unfold outranks. simpl. lia.
    + apply Nat.leb_gt in E. constructor; [done|].
      rewrite insert_desc_perm. constructor; [|done]. unfold outranks. lia.
Qed.

Lemma order_by_desc_sorted l : StronglySorted (outranks key) (order_by_desc key l).
Proof.
  induction l as [|a l IH]; simpl; [constructor|]. by apply insert_desc_sorted.
Qed.

End RankingProofs.

(** ** ArticleDetailView.get_similar_articles *)

(** C7: the result never holds the reference article and has at most 6
    entries; it is the first 6 of a shuffle of the whole candidate list,
    the candidates being all other articles that share a tag with the
    reference article, ranked by their number of shared tags, highest
    first; the shuffle is not confined to ties: every arrangement of the
    ranked list is produced by some draws. *)
Theorem similar_articles_selection draws db obj :
  let pool := filter_tags_in (article_tags obj) (article_pk obj) (articles db) in
  let ranked := order_by_desc (related_tags (article_tags obj)) pool in
  let r := get_similar_articles draws db obj in
  (length r ≤ 6)%nat ∧
  length r = (length pool `min` 6)%nat ∧
  (∀ a, a ∈ r → article_pk a ≠ article_pk obj) ∧
  (∀ a, a ∈ pool ↔
        a ∈ articles db ∧ article_pk a ≠ article_pk obj ∧
        (0 < related_tags (article_tags obj) a)%nat) ∧
  ranked ≡ₚ pool ∧
  StronglySorted (outranks (related_tags (article_tags obj))) ranked ∧
  Random.shuffle draws ranked ≡ₚ ranked ∧
  r = take 6 (Random.shuffle draws ranked) ∧
  (∀ target, target ≡ₚ ranked →
     ∃ draws', get_similar_articles draws' db obj = take 6 target).
Proof.
  intros pool ranked r.
  assert (Hperm : Random.shuffle draws ranked ≡ₚ pool).
  { rewrite shuffle_perm. apply order_by_desc_perm. }
  assert (Hpool : ∀ a, a ∈ pool ↔
            a ∈ articles db ∧ article_pk a ≠ article_pk obj ∧
            (0 < related_tags (article_tags obj) a)%nat).
  { intros a. unfold pool, filter_tags_in, related_tags.
    rewrite list_elem_of_filter.
    assert (article_tags a ∩ article_tags obj ≠ ∅ ↔
            (0 < size (article_tags a ∩ article_tags obj))%nat) as ->; [|tauto].
    pose proof (size_non_empty_iff (article_tags a ∩ article_tags obj)) as Hs.
    rewrite <- (leibniz_equiv_iff (article_tags a ∩ article_tags obj) ∅).
    rewrite <- Hs. lia. }
  split; [unfold r, get_similar_articles; rewrite length_take; lia|].
  split; [unfold r, get_similar_articles; fold pool ranked;
          rewrite length_take, Hperm; lia|].
  split.
  { intros a Ha. apply elem_of_take in Ha as (i & Hi & _).
    apply list_elem_of_lookup_2 in Hi. fold pool ranked in Hi.
    rewrite Hperm in Hi. apply Hpool in Hi. tauto. }
  split; [exact Hpool|].
  split; [apply order_by_desc_perm|].
  split; [apply order_by_desc_sorted|].
  split; [apply shuffle_perm|].
  split; [done|].
  intros target Ht. destruct (shuffle_reaches ranked target Ht) as [draws' Hd].
  exists draws'. unfold get_similar_articles. fold pool ranked. by rewrite Hd.
Qed.

(** With seven candidates the ranking puts article 5 first (it shares all
    three tags), and the draws below leave it out of the six returned
    while articles sharing one tag are kept. *)
Example similar_articles_rank_lost :
  let obj := Example.tagged 1 [1; 2; 3] in
  article_pk <$> order_by_desc (related_tags (article_tags obj))
                   (filter_tags_in (article_tags obj) 1 (articles Example.library))
    = [5; 3; 9; 2; 6; 7; 8] ∧
  article_pk <$> get_similar_articles [] Example.library obj
    = [3; 9; 2; 6; 7; 8] ∧
  article_pk <$> get_similar_articles [6; 5; 4; 3; 2; 1]%nat Example.library obj
    = [5; 3; 9; 2; 6; 7].
Proof. vm_compute. repeat split; reflexivity. Qed.

(** * Further properties *)

(** ** Votes: frames, sequences, errors *)

Lemma rating_pk_inj (l : list Rating) x r :
  NoDup (rating_pk <$> l) → x ∈ l → r ∈ l → rating_pk x = rating_pk r → x = r.
Proof.
  intros Hnd [i Hi]%list_elem_of_lookup [j Hj]%list_elem_of_lookup E.
  assert (i = j) as ->; [|congruence].
  eapply NoDup_lookup; [exact Hnd| |];
    rewrite list_lookup_fmap; [by rewrite Hi|rewrite Hj; simpl; by rewrite E].
Qed.

Lemma filter_filter_skip {A} (P Q : A → Prop) `{∀ x, Decision (P x)}
    `{∀ x, Decision (Q x)} (l : list A) :
  (∀ x, x ∈ l → ¬ Q x → ¬ P x) → filter P (filter Q l) = filter P l.
Proof.
  induction l as [|x l IH]; intros Hl; [done|].
  rewrite (filter_cons Q). destruct (decide (Q x)) as [HQ|HQ].
  - rewrite !filter_cons. rewrite IH by (intros y Hy; apply Hl; by right).
    done.
  - rewrite (filter_cons_False P x l) by (apply Hl; [by left|done]).
    apply IH. intros y Hy. apply Hl. by right.
Qed.

Lemma filter_fmap_skip {A} (P : A → Prop) `{∀ x, Decision (P x)}
    (f : A → A) (l : list A) :
  (∀ x, x ∈ l → f x = x ∨ (¬ P x ∧ ¬ P (f x))) → filter P (f <$> l) = filter P l.
Proof.
  induction l as [|x l IH]; intros Hl; [done|].
  rewrite fmap_cons.
  assert (IH' : filter P (f <$> l) = filter P l).
  { apply IH. intros y Hy. apply Hl. by right. }
  destruct (Hl x ltac:(by left)) as [->|[H1 H2]].
  - by rewrite !filter_cons, IH'.
  - by rewrite !filter_cons_False.
Qed.


Section VoteFrames.

Variable get_client_ip : Request → string.

Lemma post_store_keyed req db res db' :
  post get_client_ip req db = (res, db') →
  ratings db' = ratings db ∨
  ∃ a, posted_int "article_id" req = Some a ∧
    ((∃ v, ORM.rating_rows a (get_client_ip req) db = [] ∧
           db' = add_rating (mkRating (rating_seq db) a (get_client_ip req) v
                               (session_user (request_user req))) db) ∨
     (∃ r, ORM.rating_rows a (get_client_ip req) db = [r] ∧
           db' = remove_rating r db) ∨
     (∃ r v, ORM.rating_rows a (get_client_ip req) db = [r] ∧
             db' = replace_rating
                     (mkRating (rating_pk r) (rating_article_id r)
                        (rating_ip_address r) v
                        (session_user (request_user req))) db)).
Proof.
  unfold post, py_int, ORM.get_or_create, ORM.create, ORM.refused_insert,
    ORM.delete, ORM.save, ORM.article, get_sum_rating, bind, get_db, put_db,
    ret, raise.
  intros H.
  repeat (case_match; simplify_eq/=); try (by left).
  all: try (exfalso;
    match goal with
    | Hrows : ORM.rating_rows _ _ _ = [_],
      Hpk : bool_decide _ = false |- _ =>
        apply rating_rows_single in Hrows as (Hin & _);
        apply bool_decide_eq_false in Hpk; apply Hpk;
        by apply list_elem_of_fmap_2
    end).
  all: right;
    match goal with
    | Hq : querydict_get "article_id" _ = Some ?s,
      Hi : int_of_str ?s = Some ?z |- _ =>
        exists z; split; [unfold posted_int; by rewrite Hq|]
    end; eauto 10.
Qed.

(** A vote changes no row outside the request's own (article, address) key. *)
Lemma vote_frame (P : Rating → Prop) `{∀ x, Decision (P x)} req db res db' :
  NoDup (rating_pk <$> ratings db) →
  post get_client_ip req db = (res, db') →
  (∀ x, posted_int "article_id" req = Some (rating_article_id x) →
        rating_ip_address x = get_client_ip req → ¬ P x) →
  filter P (ratings db') = filter P (ratings db).
Proof.
  intros Hnd Hpost HP.
  apply post_store_keyed in Hpost
    as [Hsame|(a & Ha & [(v & Hrows & ->)|[(r & Hrows & ->)|(r & v & Hrows & ->)]])];
    [by rewrite Hsame|..].
  - unfold add_rating. simpl. rewrite filter_app.
    rewrite (filter_cons_False P) by (by apply HP). by rewrite filter_nil, app_nil_r.
  - apply rating_rows_single in Hrows as (Hin & Hra & Hrip).
    unfold remove_rating. simpl. apply filter_filter_skip.
    intros x Hx Hpk. assert (x = r) as ->.
    { apply (rating_pk_inj (ratings db)); [done..|]. by destruct (decide (rating_pk x = rating_pk r)). }
    apply HP; [by rewrite Hra|done].
  - apply rating_rows_single in Hrows as (Hin & Hra & Hrip).
    unfold replace_rating. simpl. apply filter_fmap_skip.
    intros x Hx. case_bool_decide as E; [|by left]. right. simpl in E.
    assert (x = r) as -> by (by apply (rating_pk_inj (ratings db))).
    split; apply HP; simpl; by rewrite ?Hra.
Qed.

(** X3: with unique row keys, a vote changes no rating row of another
    article or another voter address. *)
Theorem vote_leaves_other_keys req db res db' a' ip' :
  NoDup (rating_pk <$> ratings db) →
  post get_client_ip req db = (res, db') →
  posted_int "article_id" req ≠ Some a' ∨ ip' ≠ get_client_ip req →
  ORM.rating_rows a' ip' db' = ORM.rating_rows a' ip' db.
Proof.
  intros Hnd Hpost Hkey. unfold ORM.rating_rows.
  apply (vote_frame _ req db res db' Hnd Hpost).
  intros x Ha Hip [E1 E2]. destruct Hkey as [Hk|Hk]; [|congruence].
  apply Hk. by rewrite Ha, E1.
Qed.

(** X4: with unique row keys, a vote on one article leaves the rating sum
    of every other article as it was. *)
Theorem vote_leaves_other_articles req db res db' a' :
  NoDup (rating_pk <$> ratings db) →
  post get_client_ip req db = (res, db') →
  posted_int "article_id" req ≠ Some a' →
  sum_values (article_values a' db') = sum_values (article_values a' db).
Proof.
  intros Hnd Hpost Hkey. unfold article_values.
  rewrite (vote_frame _ req db res db' Hnd Hpost); [done|].
  intros x Ha _ E. apply Hkey. by rewrite Ha, E.
Qed.

(** X5: whatever its outcome, a vote leaves the articles and the comments
    as they were and never moves the rating sequence back. *)
Theorem vote_touches_only_ratings req db res db' :
  post get_client_ip req db = (res, db') →
  articles db' = articles db ∧ comments db' = comments db ∧
  comment_seq db' = comment_seq db ∧ rating_seq db ≤ rating_seq db'.
Proof.
  intros H.
  apply post_store_cases in H
    as [[-> | ->]|[(a & v & _ & ->)|[(a & r & _ & ->)|(a & r & v & _ & ->)]]];
    simpl; repeat split; lia.
Qed.


(** X7: the view depends on the submitted article id and value only through
    the integers they denote, on the address and on the session user. *)
Theorem vote_text_format_irrelevant req1 req2 db a v :
  posted_int "article_id" req1 = Some a →
  posted_int "article_id" req2 = Some a →
  posted_int "value" req1 = Some v →
  posted_int "value" req2 = Some v →
  get_client_ip req1 = get_client_ip req2 →
  session_user (request_user req1) = session_user (request_user req2) →
  post get_client_ip req1 db = post get_client_ip req2 db.
Proof.
  intros Ha1 Ha2 Hv1 Hv2 Hip Hu.
  unfold post.
  rewrite (bind_ok _ _ _ _ _ (py_int_posted _ _ Hv1 db)).
  rewrite (bind_ok _ _ _ _ _ (py_int_posted _ _ Hv2 db)).
  unfold posted_int in Ha1, Ha2.
  destruct (querydict_get "article_id" (POST req1)) as [s1|]; simpl in Ha1; [|done].
  destruct (querydict_get "article_id" (POST req2)) as [s2|]; simpl in Ha2; [|done].
  unfold ORM.get_or_create. by rewrite Ha1, Ha2, Hip, Hu.
Qed.

Lemma vote_times_parity req a v n :
  posted_int "article_id" req = Some a →
  posted_int "value" req = Some v →
  ORM.int4 v = true →
  ∀ db,
    ORM.article_exists a db = true →
    (ORM.rating_rows a (get_client_ip req) db = [] →
     reply_status <$> (vote_times get_client_ip n req db).1 = toggle_statuses false n ∧
     length (ORM.rating_rows a (get_client_ip req)
               (vote_times get_client_ip n req db).2) = (n `mod` 2)%nat) ∧
    (∀ r, ORM.rating_rows a (get_client_ip req) db = [r] → rating_value r = v →
     reply_status <$> (vote_times get_client_ip n req db).1 = toggle_statuses true n ∧
     length (ORM.rating_rows a (get_client_ip req)
               (vote_times get_client_ip n req db).2) = (S n `mod` 2)%nat).
Proof.
  intros Ha Hv Hr. induction n as [|n IH]; intros db Hex.
  - split; [intros Hrows|intros r Hrows _]; simpl; by rewrite Hrows.
  - split.
    + intros Hrows.
      pose proof (post_created get_client_ip req db a v Ha Hv Hr Hex Hrows) as Hp.
      simpl in Hp. cbn [vote_times]. rewrite Hp.
      set (new := mkRating _ _ _ _ _) in *.
      destruct (IH (add_rating new db) Hex) as [_ IH2].
      destruct (IH2 new) as [Hs Hl].
      { rewrite rating_rows_add, Hrows. simpl. by rewrite decide_True. }
      { done. }
      destruct (vote_times get_client_ip n req (add_rating new db)) as [rs db2].
      cbn [fst snd] in *. rewrite fmap_cons, Hs. split; [done|].
      by rewrite Hl.
    + intros r Hrows Hval.
      pose proof (post_deleted get_client_ip req db a v r Ha Hv Hex Hrows Hval) as Hp.
      cbn [vote_times]. rewrite Hp.
      destruct (IH (remove_rating r db) Hex) as [IH1 _].
      destruct IH1 as [Hs Hl].
      { rewrite rating_rows_remove, Hrows. by rewrite filter_cons_False by auto. }
      destruct (vote_times get_client_ip n req (remove_rating r db)) as [rs db2].
      cbn [fst snd] in *. rewrite fmap_cons, Hs. split; [done|].
      rewrite Hl.
      replace (S (S n)) with (n + 1 * 2)%nat by lia.
      by rewrite Nat.Div0.mod_add.
Qed.

(** X8: from the no-vote state, n successive votes with one value answer
    created, deleted, created, ... and leave a row exactly when n is odd. *)
Theorem repeated_vote_toggles req db a v n :
  posted_int "article_id" req = Some a →
  posted_int "value" req = Some v →
  ORM.int4 v = true →
  ORM.article_exists a db = true →
  ORM.rating_rows a (get_client_ip req) db = [] →
  reply_status <$> (vote_times get_client_ip n req db).1 = toggle_statuses false n ∧
  length (ORM.rating_rows a (get_client_ip req)
            (vote_times get_client_ip n req db).2) = (n `mod` 2)%nat.
Proof.
  intros Ha Hv Hr Hex Hrows.
  by apply (vote_times_parity req a v n Ha Hv Hr db Hex).
Qed.

(** X2: any sequence of votes, whatever their outcomes, keeps the rating
    table well formed: unique keys behind the sequence and at most one row
    per article and voter address. *)
Theorem votes_keep_table_well_formed reqs db :
  ratings_wf db → ratings_wf (run_posts get_client_ip reqs db).
Proof.
  revert db. induction reqs as [|req reqs IH]; intros db Hwf; [done|].
  simpl. apply IH.
  destruct (post get_client_ip req db) as [res db'] eqn:E.
  by apply (post_preserves_wf get_client_ip req db res db').
Qed.
End VoteFrames.

(** ** Comments: frames, replies, the table *)

Section CommentFrames.

Variable now : Z.
Variable strftime : Z → string.
Variable get_avatar : Comment → string.
Variable profile_get_absolute_url : User → string.
Variable article_get_absolute_url : Article → string.

Local Abbreviation form_valid' :=
  (form_valid now strftime get_avatar profile_get_absolute_url
     article_get_absolute_url).

Lemma form_valid_store_cases kw req form db res db' :
  form_valid' kw req form db = (res, db') →
  (is_ok res = false ∧
   db' = (if parent_known (submitted kw req form) db
          then skip_comment_key db else db) ∧
   parent_known (submitted kw req form) db
     && article_known (submitted kw req form) db = false) ∨
  (is_ok res = true ∧
   db' = add_comment (stored now db (submitted kw req form)) db ∧
   parent_known (submitted kw req form) db = true ∧
   article_known (submitted kw req form) db = true).
Proof.
  intros H.
  destruct (parent_known (submitted kw req form) db
              && article_known (submitted kw req form) db) eqn:E.
  - apply andb_true_iff in E as [Hp Ha]. right.
    destruct (form_valid_ok now strftime get_avatar profile_get_absolute_url
                article_get_absolute_url kw req form db Hp Ha) as (resp & Hf & _).
    rewrite Hf in H. by injection H as <- <-.
  - left.
    destruct (form_valid_raises now strftime get_avatar profile_get_absolute_url
                article_get_absolute_url kw req form db E) as (e & _ & Hf).
    rewrite Hf in H. by injection H as <- <-.
Qed.

(** X9: a comment submission leaves articles and ratings untouched and the
    existing comments in place: it appends one row when it succeeds and
    none when it raises. *)
Theorem comments_are_append_only kw req form db res db' :
  form_valid' kw req form db = (res, db') →
  articles db' = articles db ∧ ratings db' = ratings db ∧
  rating_seq db' = rating_seq db ∧
  ∃ cs, comments db' = comments db ++ cs ∧
        length cs = (if is_ok res then 1 else 0)%nat.
Proof.
  intros H. apply form_valid_store_cases in H
    as [(-> & -> & _)|(-> & -> & _)].
  - destruct (parent_known _ db); repeat split; try done;
      exists []; by rewrite app_nil_r.
  - repeat split; try done. by eexists [_].
Qed.

(** X10: what is stored, and whether the submission succeeds, depends on
    the session user but not on the headers: the asynchronous and the
    full-page submission store the same. *)
Theorem comment_store_ignores_transport kw req1 req2 form db :
  request_user req1 = request_user req2 →
  (form_valid' kw req1 form db).2 = (form_valid' kw req2 form db).2 ∧
  is_ok (form_valid' kw req1 form db).1 = is_ok (form_valid' kw req2 form db).1.
Proof.
  intros Hu.
  assert (Hs : submitted kw req1 form = submitted kw req2 form).
  { unfold submitted. by rewrite Hu. }
  destruct (form_valid' kw req1 form db) as [r1 d1] eqn:E1.
  destruct (form_valid' kw req2 form db) as [r2 d2] eqn:E2.
  apply form_valid_store_cases in E1, E2. rewrite Hs in E1. simpl.
  destruct E1 as [(-> & -> & H1)|(-> & -> & H1 & H1')],
           E2 as [(-> & -> & H2)|(-> & -> & H2 & H2')]; try done.
  - by rewrite H2, H2' in H1.
  - by rewrite H1, H1' in H2.
Qed.

(** X11: a full-page submission that succeeds redirects to the canonical
    link of the article of the URL. *)
Theorem comment_redirects_to_article kw req form db a :
  kw = Some a →
  ORM.article_exists a db = true →
  parent_known (submitted kw req form) db = true →
  is_ajax req = false →
  ∃ art db',
    form_valid' kw req form db =
      (Ok (HttpResponseRedirect (article_get_absolute_url art)), db') ∧
    art ∈ articles db ∧ article_pk art = a.
Proof.
  intros -> Ha Hp Hajax.
  destruct (form_valid_ok now strftime get_avatar profile_get_absolute_url
              article_get_absolute_url (Some a) req form db Hp Ha)
    as (resp & Hf & Hr).
  unfold reply_to in Hr. rewrite Hajax in Hr.
  unfold CommentORM.article, bind, get_db in Hr. simpl in Hr.
  destruct (article_found a db Ha) as (i & art & Hfind & Hpk).
  rewrite Hfind in Hr. simpl in Hr. injection Hr as <-.
  exists art. eexists. split; [exact Hf|]. split; [|done].
  apply list_find_Some in Hfind as (Hl & _). by eapply list_elem_of_lookup_2.
Qed.

(** X12: a submission without an article key, or for an article that does
    not exist, raises and stores no comment: the store is as before, except
    that the refused insert has used up one key of the comment sequence (a
    cited parent that does not exist stops the call before the insert). *)
Theorem comment_on_missing_article_refused kw req form db :
  (∀ a, kw = Some a → ORM.article_exists a db = false) →
  ∃ e, form_valid now strftime get_avatar profile_get_absolute_url
         article_get_absolute_url kw req form db =
       (Raise e, if parent_known (submitted kw req form) db
                 then skip_comment_key db else db).
Proof.
  intros H.
  destruct (form_valid_raises now strftime get_avatar profile_get_absolute_url
              article_get_absolute_url kw req form db) as (e & _ & Hf).
  - apply andb_false_iff. right. unfold article_known. simpl.
    destruct kw as [a|]; [by apply H|done].
  - eauto.
Qed.

(** X13: the asynchronous reply describes the row just stored: its new
    key, the parent it was given, whether it is a child, its content and
    its creation time. *)
Theorem ajax_reply_describes_row kw req form db data db' :
  is_ajax req = true →
  form_valid' kw req form db = (Ok (JsonResponse data 200), db') →
  dict_get "id" data = Some (JInt (comment_seq db)) ∧
  dict_get "parent_id" data = Some (json_of_opt JInt (cleaned_parent form)) ∧
  dict_get "is_child" data = Some (JBool (bool_decide (cleaned_parent form ≠ None))) ∧
  dict_get "content" data = Some (JStr (cleaned_content form)) ∧
  dict_get "time_create" data = Some (JStr (strftime now)) ∧
  last (comments db') = Some (stored now db (submitted kw req form)).
Proof.
  intros Hajax H.
  apply form_valid_inv in H as (-> & _ & _ & Hr).
  unfold reply_to in Hr. rewrite Hajax in Hr.
  unfold stored, submitted in Hr. simpl in Hr.
  destruct (request_user req); simpl in Hr; injection Hr as <-;
    repeat split; try done; simpl; by rewrite last_snoc.
Qed.

End CommentFrames.

Lemma comment_exists_add p c db :
  CommentORM.comment_exists p db = true →
  CommentORM.comment_exists p (add_comment c db) = true.
Proof.
  unfold CommentORM.comment_exists, add_comment. simpl.
  intros H%bool_decide_eq_true. apply bool_decide_eq_true.
  rewrite fmap_app. apply elem_of_app. by left.
Qed.

Lemma skip_comment_key_wf db : comments_wf db → comments_wf (skip_comment_key db).
Proof.
  intros [Hnd Hall]. split; [done|].
  eapply Forall_impl; [exact Hall|]. simpl.
  intros x (k & Hk & Hlt & Hpar & Hart).
  exists k. split; [done|]. split; [lia|]. by split.
Qed.

Lemma comments_wf_below db p :
  comments_wf db → CommentORM.comment_exists p db = true → p < comment_seq db.
Proof.
  intros [_ Hall] H%bool_decide_eq_true.
  apply list_elem_of_fmap in H as (c & Hc & Hin).
  rewrite Forall_forall in Hall.
  destruct (Hall c Hin) as (k & Hk & Hlt & _). congruence.
Qed.

Section CommentInvariant.

Variable now : Z.
Variable strftime : Z → string.
Variable get_avatar : Comment → string.
Variable profile_get_absolute_url : User → string.
Variable article_get_absolute_url : Article → string.

Local Abbreviation form_valid' :=
  (form_valid now strftime get_avatar profile_get_absolute_url
     article_get_absolute_url).

(** X14: a comment submission keeps the comment table well formed: unique
    keys behind the sequence, every parent an existing comment with a
    smaller key (threads cannot loop), every article existing. *)
Theorem comments_stay_well_formed kw req form db res db' :
  comments_wf db →
  form_valid' kw req form db = (res, db') →
  comments_wf db'.
Proof.
  intros Hwf H.
  apply (form_valid_store_cases now strftime get_avatar profile_get_absolute_url
           article_get_absolute_url) in H
    as [(_ & -> & _)|(_ & -> & Hp & Ha)].
  { destruct (parent_known _ db); [by apply skip_comment_key_wf|done]. }
  pose proof Hwf as [Hnd Hall].
  set (c := stored now db (submitted kw req form)).
  split.
  - unfold add_comment. simpl. rewrite fmap_app. apply NoDup_app.
    split; [done|]. split; [|apply NoDup_singleton].
    intros k Hk Hk'. apply list_elem_of_singleton in Hk'. simpl in Hk'. subst k.
    apply list_elem_of_fmap in Hk as (x & Hx & Hin).
    rewrite Forall_forall in Hall.
    destruct (Hall x Hin) as (k & Hk & Hlt & _). rewrite Hk in Hx.
    injection Hx as Hx. lia.
  - unfold add_comment at 1. simpl. apply Forall_app. split.
    + eapply Forall_impl; [exact Hall|]. simpl.
      intros x (k & Hk & Hlt & Hpar & a & Hart & Hex).
      exists k. split; [done|]. split; [lia|]. split.
      * intros p Hp'. destruct (Hpar p Hp') as [? ?].
        split; [done|]. by apply comment_exists_add.
      * by exists a.
    + constructor; [|constructor].
      exists (comment_seq db). split; [done|]. split; [simpl; lia|]. split.
      * intros p Hp'. unfold parent_known in Hp. simpl in Hp, Hp'.
        rewrite Hp' in Hp. split.
        -- by apply comments_wf_below.
        -- by apply comment_exists_add.
      * unfold article_known in Ha. simpl in Ha.
        destruct kw as [a|]; [|done]. by exists a.
Qed.
End CommentInvariant.

(** ** Votes and comments together *)

Section VoteAndComment.

Variable get_client_ip : Request → string.
Variable now : Z.
Variable strftime : Z → string.
Variable get_avatar : Comment → string.
Variable profile_get_absolute_url : User → string.
Variable article_get_absolute_url : Article → string.

Local Abbreviation form_valid' :=
  (form_valid now strftime get_avatar profile_get_absolute_url
     article_get_absolute_url).

Lemma post_frame_comments req cs k db :
  post get_client_ip req (with_comments cs k db) =
  ((post get_client_ip req db).1, with_comments cs k (post get_client_ip req db).2).
Proof.
  unfold post, py_int, ORM.get_or_create, ORM.create, ORM.refused_insert,
    ORM.delete, ORM.save, ORM.article, get_sum_rating, bind, get_db, put_db,
    ret, raise,
    ORM.rating_rows, ORM.article_exists, article_values, with_comments.
  simpl.
  repeat (case_match; simplify_eq/=); done.
Qed.

Lemma form_valid_frame_ratings kw req form rs k db :
  form_valid' kw req form (with_ratings rs k db) =
  ((form_valid' kw req form db).1,
   with_ratings rs k (form_valid' kw req form db).2).
Proof.
  unfold form_valid, CommentORM.save, CommentORM.insert,
    CommentORM.refused_insert, CommentORM.article,
    CommentORM.comment_exists, ORM.article_exists, bind, get_db, put_db, ret,
    raise, with_ratings.
  simpl.
  repeat (case_match; simplify_eq/=); done.
Qed.

(** X15: a vote and a comment submission commute: each gives the same
    answer before or after the other, and both orders end in the same
    store. *)
Theorem vote_and_comment_commute req kw creq form db :
  let vote := post get_client_ip req in
  let comment := form_valid' kw creq form in
  (vote db).1 = (vote (comment db).2).1 ∧
  (comment db).1 = (comment (vote db).2).1 ∧
  (comment (vote db).2).2 = (vote (comment db).2).2.
Proof.
  intros vote comment.
  destruct (vote db) as [r1 d1] eqn:Ev.
  destruct (comment db) as [r2 e1] eqn:Ec.
  pose proof (vote_touches_only_ratings get_client_ip req db r1 d1 Ev)
    as (Ha & Hc & Hcs & _).
  pose proof (comments_are_append_only now strftime get_avatar
                profile_get_absolute_url article_get_absolute_url
                kw creq form db r2 e1 Ec) as (Ha' & Hr' & Hrs' & _).
  assert (Hd1 : d1 = with_ratings (ratings d1) (rating_seq d1) db).
  { destruct d1, db. unfold with_ratings. simpl in *. by subst. }
  assert (He1 : e1 = with_comments (comments e1) (comment_seq e1) db).
  { destruct e1, db. unfold with_comments. simpl in *. by subst. }
  cbn [fst snd].
  rewrite Hd1 at 1 2. rewrite He1 at 1 2.
  unfold comment, vote.
  rewrite form_valid_frame_ratings, post_frame_comments.
  fold vote comment. rewrite Ev, Ec. cbn [fst snd].
  repeat split.
  unfold with_ratings, with_comments. simpl. by rewrite Ha, Ha'.
Qed.
End VoteAndComment.

(** ** Similar articles and articles by tag *)


Lemma filter_none {A} (P : A → Prop) `{∀ x, Decision (P x)} (l : list A) :
  (∀ x, x ∈ l → ¬ P x) → filter P l = [].
Proof.
  induction l as [|x l IH]; intros Hl; [done|].
  rewrite filter_cons_False by (apply Hl; by left).
  apply IH. intros y Hy. apply Hl. by right.
Qed.

(** X16: when article keys are unique, no article is listed twice among
    the similar articles. *)
Theorem similar_articles_without_duplicates draws db obj :
  NoDup (article_pk <$> articles db) →
  NoDup (article_pk <$> get_similar_articles draws db obj).
Proof.
  intros Hnd. unfold get_similar_articles.
  eapply sublist_NoDup; [|apply fmap_sublist, sublist_take].
  rewrite shuffle_perm, order_by_desc_perm.
  eapply sublist_NoDup; [exact Hnd|]. apply fmap_sublist, sublist_filter.
Qed.

(** X17: with at most six candidates, every candidate is returned. *)
Theorem similar_articles_all_when_few draws db obj :
  (length (filter_tags_in (article_tags obj) (article_pk obj) (articles db)) ≤ 6)%nat →
  get_similar_articles draws db obj ≡ₚ
    filter_tags_in (article_tags obj) (article_pk obj) (articles db).
Proof.
  intros Hlen. unfold get_similar_articles.
  rewrite take_ge.
  - by rewrite shuffle_perm, order_by_desc_perm.
  - by rewrite shuffle_perm, order_by_desc_perm.
Qed.

(** X18: an article without tags has no similar articles. *)
Theorem similar_articles_of_untagged draws db obj :
  article_tags obj = ∅ → get_similar_articles draws db obj = [].
Proof.
  intros Ht. unfold get_similar_articles, filter_tags_in. rewrite Ht.
  rewrite filter_none; [done|].
  intros a _ [Hne _]. apply Hne. apply intersection_empty_r_L.
Qed.

(** X19: every candidate is returned for some draws, and with more than six
    distinct candidates every candidate, the top ranked included, is left
    out for some draws. *)
Theorem similar_articles_no_guarantee db obj c :
  let pool := filter_tags_in (article_tags obj) (article_pk obj) (articles db) in
  c ∈ pool →
  (∃ draws, c ∈ get_similar_articles draws db obj) ∧
  (NoDup pool → (6 < length pool)%nat →
   ∃ draws, c ∉ get_similar_articles draws db obj).
Proof.
  intros pool Hc.
  set (ranked := order_by_desc (related_tags (article_tags obj)) pool).
  assert (Hr : ranked ≡ₚ pool) by apply order_by_desc_perm.
  assert (Hcr : c ∈ ranked) by (by rewrite Hr).
  apply elem_of_Permutation in Hcr as [k Hk].
  split.
  - destruct (shuffle_reaches ranked (c :: k)) as [draws Hd]; [done|].
    exists draws. unfold get_similar_articles. fold pool ranked. rewrite Hd.
    simpl. by left.
  - intros Hnd Hlen.
    destruct (shuffle_reaches ranked (k ++ [c])) as [draws Hd].
    { rewrite Hk. symmetry. apply Permutation_cons_append. }
    exists draws. unfold get_similar_articles. fold pool ranked. rewrite Hd.
    assert (Hlk : (6 ≤ length k)%nat).
    { rewrite <- Hr, Hk in Hlen. simpl in Hlen. lia. }
    rewrite take_app_le by done.
    intros Hin. apply elem_of_take in Hin as (i & Hi & _).
    apply list_elem_of_lookup_2 in Hi.
    rewrite <- Hr, Hk in Hnd. apply NoDup_cons in Hnd as [Hnot _]. done.
Qed.

Section ByTagProofs.

Variable tag_table : list Tag.

(** X20: a slug that no tag carries raises DoesNotExist. *)
Theorem articles_by_unknown_tag slug db :
  slug ∉ tag_slug <$> tag_table →
  by_tag_get_queryset tag_table slug db = (Raise DoesNotExist, db).
Proof.
  intros H. unfold by_tag_get_queryset, tag_get.
  rewrite filter_none; [done|].
  intros t Ht E. apply H. rewrite <- E. by apply list_elem_of_fmap_2.
Qed.

(** X21: with unique slugs, the queryset of a tag is the articles that carry
    the tag, each once, in table order. *)
Theorem articles_by_tag_membership slug t db :
  NoDup (tag_slug <$> tag_table) →
  t ∈ tag_table → tag_slug t = slug →
  by_tag_get_queryset tag_table slug db =
    (Ok (t, filter (λ a, tag_pk t ∈ article_tags a) (articles db)), db).
Proof.
  intros Hnd Hin Hslug.
  assert (Hone : ∀ P `{∀ x, Decision (P x)},
            filter (λ x, P x ∧ tag_slug x = slug) tag_table =
            if decide (P t) then [t] else []).
  { intros P HP. clear -Hnd Hin Hslug.
    induction tag_table as [|x l IH]; [by apply elem_of_nil in Hin|].
    rewrite fmap_cons in Hnd. apply NoDup_cons in Hnd as [Hx Hnd].
    assert (Hl : ∀ y, y ∈ l → tag_slug y = slug → tag_slug x ≠ slug).
    { intros y Hy E E'. apply Hx. rewrite E', <- E. by apply list_elem_of_fmap_2. }
    apply elem_of_cons in Hin as [->|Hin].
    - rewrite filter_cons.
      rewrite (filter_none _ l).
      + destruct (decide (P x)), (decide (P x ∧ tag_slug x = slug)); tauto.
      + intros y Hy [_ E]. by apply (Hl y).
    - rewrite filter_cons_False by (intros [_ E]; by apply (Hl t)).
      by apply IH. }
  unfold by_tag_get_queryset, tag_get.
  rewrite (list_filter_iff _ (λ x, True ∧ tag_slug x = slug)) by tauto.
  rewrite (Hone (λ _, True) _). simpl.
  unfold bind, get_db, ret. simpl. f_equal. f_equal. f_equal.
  unfold filter_tags_slug. rewrite Hslug.
  induction (articles db) as [|a l IH]; [done|].
  rewrite bind_cons, IH, (Hone (λ x, tag_pk x ∈ article_tags a) _), filter_cons.
  by destruct (decide (tag_pk t ∈ article_tags a)).
Qed.
End ByTagProofs.

(** ** The further properties at concrete inputs *)

Lemma blog_ratings_wf : ratings_wf Example.blog.
Proof.
  split; [constructor|]. split; [constructor|]. intros a ip. simpl. lia.
Defined.

Lemma vote_succeeds_witness :
  ∃ status db',
    post Example.client_ip Example.vote_up Example.blog =
      (Ok (rating_reply status (sum_values (article_values 5 db'))), db') ∧
    status ∈ ["created"; "deleted"; "updated"].
Proof.
  apply (vote_succeeds Example.client_ip Example.vote_up Example.blog 5 1);
    try reflexivity.
  simpl. lia.
Defined.

Lemma votes_keep_table_well_formed_witness :
  ratings_wf
    (run_posts Example.client_ip
       [Example.vote_up; Scenario.vote_up_other; Example.vote_down_alice;
        Example.vote_five; Scenario.vote_on_seven]
       Example.blog).
Proof.
  apply (votes_keep_table_well_formed Example.client_ip). exact blog_ratings_wf.
Defined.

Lemma vote_leaves_other_keys_witness :
  ORM.rating_rows 5 "10.0.0.1"
    (post Example.client_ip Scenario.vote_up_other Example.blog_voted).2
  = ORM.rating_rows 5 "10.0.0.1" Example.blog_voted.
Proof.
  apply (vote_leaves_other_keys Example.client_ip Scenario.vote_up_other
           Example.blog_voted
           (post Example.client_ip Scenario.vote_up_other Example.blog_voted).1).
  - simpl. apply NoDup_singleton.
  - reflexivity.
  - right. discriminate.
Defined.

Lemma vote_leaves_other_articles_witness :
  sum_values (article_values 5
    (post Example.client_ip Scenario.vote_on_six Example.blog_voted).2)
  = sum_values (article_values 5 Example.blog_voted).
Proof.
  apply (vote_leaves_other_articles Example.client_ip Scenario.vote_on_six
           Example.blog_voted
           (post Example.client_ip Scenario.vote_on_six Example.blog_voted).1).
  - simpl. apply NoDup_singleton.
  - reflexivity.
  - vm_compute. discriminate.
Defined.

Lemma vote_touches_only_ratings_witness :
  articles (post Example.client_ip Example.vote_up Example.blog).2
    = articles Example.blog ∧
  comments (post Example.client_ip Example.vote_up Example.blog).2
    = comments Example.blog ∧
  comment_seq (post Example.client_ip Example.vote_up Example.blog).2
    = comment_seq Example.blog ∧
  rating_seq Example.blog
    ≤ rating_seq (post Example.client_ip Example.vote_up Example.blog).2.
Proof.
  apply (vote_touches_only_ratings Example.client_ip Example.vote_up Example.blog
           (post Example.client_ip Example.vote_up Example.blog).1).
  reflexivity.
Defined.


Lemma vote_text_format_irrelevant_witness :
  post Example.client_ip Example.vote_up Example.blog_voted
  = post Example.client_ip Scenario.vote_up_padded Example.blog_voted.
Proof.
  apply (vote_text_format_irrelevant Example.client_ip Example.vote_up
           Scenario.vote_up_padded Example.blog_voted 5 1);
    reflexivity.
Defined.

Lemma repeated_vote_toggles_witness :
  reply_status <$> (vote_times Example.client_ip 3 Example.vote_up Example.blog).1
    = toggle_statuses false 3 ∧
  length (ORM.rating_rows 5 (Example.client_ip Example.vote_up)
            (vote_times Example.client_ip 3 Example.vote_up Example.blog).2)
    = (3 `mod` 2)%nat.
Proof.
  apply (repeated_vote_toggles Example.client_ip Example.vote_up Example.blog 5 1 3);
    reflexivity.
Defined.

Lemma blog_comments_wf : comments_wf Example.blog.
Proof.
  split; [simpl; apply NoDup_singleton|].
  constructor; [|constructor].
  exists 10. split; [reflexivity|]. split; [simpl; lia|]. split.
  - intros p Hp. discriminate Hp.
  - exists 6. split; reflexivity.
Defined.

Lemma comments_are_append_only_witness :
  articles (Example.form_valid (Some 5) (Example.comment_request AnonymousUser)
              Example.bob_form Example.blog).2 = articles Example.blog ∧
  ratings (Example.form_valid (Some 5) (Example.comment_request AnonymousUser)
             Example.bob_form Example.blog).2 = ratings Example.blog ∧
  rating_seq (Example.form_valid (Some 5) (Example.comment_request AnonymousUser)
                Example.bob_form Example.blog).2 = rating_seq Example.blog ∧
  ∃ cs,
    comments (Example.form_valid (Some 5) (Example.comment_request AnonymousUser)
                Example.bob_form Example.blog).2 = comments Example.blog ++ cs ∧
    length cs = 1%nat.
Proof.
  apply (comments_are_append_only 0 Example.strftime Example.get_avatar
           Example.profile_url Example.article_url (Some 5)
           (Example.comment_request AnonymousUser) Example.bob_form Example.blog
           (Ok Example.bob_reply)).
  reflexivity.
Defined.

Lemma comment_store_ignores_transport_witness :
  (Example.form_valid (Some 5) (Example.comment_request AnonymousUser)
     Example.bob_form Example.blog).2
  = (Example.form_valid (Some 5) (Scenario.plain_request AnonymousUser)
       Example.bob_form Example.blog).2 ∧
  is_ok (Example.form_valid (Some 5) (Example.comment_request AnonymousUser)
           Example.bob_form Example.blog).1
  = is_ok (Example.form_valid (Some 5) (Scenario.plain_request AnonymousUser)
             Example.bob_form Example.blog).1.
Proof.
  apply (comment_store_ignores_transport 0 Example.strftime Example.get_avatar
           Example.profile_url Example.article_url (Some 5)
           (Example.comment_request AnonymousUser)
           (Scenario.plain_request AnonymousUser) Example.bob_form Example.blog).
  reflexivity.
Defined.

Lemma comment_redirects_to_article_witness :
  ∃ art db',
    Example.form_valid (Some 5) (Scenario.plain_request AnonymousUser)
      Example.bob_form Example.blog
    = (Ok (HttpResponseRedirect (Example.article_url art)), db') ∧
    art ∈ articles Example.blog ∧ article_pk art = 5.
Proof.
  apply (comment_redirects_to_article 0 Example.strftime Example.get_avatar
           Example.profile_url Example.article_url (Some 5)
           (Scenario.plain_request AnonymousUser) Example.bob_form Example.blog 5);
    reflexivity.
Defined.

Lemma comment_on_missing_article_refused_witness :
  ∃ e, Example.form_valid (Some 7) (Example.comment_request AnonymousUser)
         Example.bob_form Example.blog
       = (Raise e, skip_comment_key Example.blog).
Proof.
  apply (comment_on_missing_article_refused 0 Example.strftime Example.get_avatar
           Example.profile_url Example.article_url (Some 7)
           (Example.comment_request AnonymousUser) Example.bob_form Example.blog).
  intros a Ha. injection Ha as <-. reflexivity.
Defined.

Lemma ajax_reply_describes_row_witness :
  dict_get "id" Scenario.reply_data = Some (JInt 11) ∧
  dict_get "parent_id" Scenario.reply_data = Some (JInt 10) ∧
  dict_get "is_child" Scenario.reply_data = Some (JBool true) ∧
  dict_get "content" Scenario.reply_data = Some (JStr "Reply") ∧
  dict_get "time_create" Scenario.reply_data = Some (JStr "1970-Jan-01 00:00:00") ∧
  last (comments (add_comment Scenario.reply_comment Example.blog))
    = Some Scenario.reply_comment.
Proof.
  apply (ajax_reply_describes_row 0 Example.strftime Example.get_avatar
           Example.profile_url Example.article_url (Some 5)
           (Example.comment_request AnonymousUser) Example.reply_form
           Example.blog Scenario.reply_data
           (add_comment Scenario.reply_comment Example.blog));
    reflexivity.
Defined.

Lemma comments_stay_well_formed_witness :
  comments_wf
    (Example.form_valid (Some 5) (Example.comment_request AnonymousUser)
       Example.reply_form Example.blog).2.
Proof.
  apply (comments_stay_well_formed 0 Example.strftime Example.get_avatar
           Example.profile_url Example.article_url (Some 5)
           (Example.comment_request AnonymousUser) Example.reply_form
           Example.blog
           (Example.form_valid (Some 5) (Example.comment_request AnonymousUser)
              Example.reply_form Example.blog).1).
  - exact blog_comments_wf.
  - reflexivity.
Defined.

Lemma similar_articles_without_duplicates_witness :
  NoDup (article_pk <$>
           get_similar_articles [3; 1; 4]%nat Example.library
             Scenario.reference).
Proof.
  apply (similar_articles_without_duplicates [3; 1; 4]%nat Example.library).
  apply (bool_decide_unpack _). vm_compute. exact I.
Defined.

Lemma similar_articles_all_when_few_witness :
  get_similar_articles [1]%nat Example.blog Scenario.article_five ≡ₚ
    filter_tags_in (article_tags Scenario.article_five)
      (article_pk Scenario.article_five) (articles Example.blog).
Proof.
  apply (similar_articles_all_when_few [1]%nat Example.blog Scenario.article_five).
  vm_compute. lia.
Defined.

Lemma similar_articles_of_untagged_witness :
  get_similar_articles [1; 2]%nat Example.library Scenario.untagged = [].
Proof.
  apply (similar_articles_of_untagged [1; 2]%nat Example.library Scenario.untagged).
  reflexivity.
Defined.

Lemma similar_articles_no_guarantee_witness :
  (∃ draws, Scenario.top_ranked
              ∈ get_similar_articles draws Example.library Scenario.reference) ∧
  (NoDup (filter_tags_in (article_tags Scenario.reference)
            (article_pk Scenario.reference) (articles Example.library)) →
   (6 < length (filter_tags_in (article_tags Scenario.reference)
                  (article_pk Scenario.reference) (articles Example.library)))%nat →
   ∃ draws, Scenario.top_ranked
              ∉ get_similar_articles draws Example.library Scenario.reference).
Proof.
  apply (similar_articles_no_guarantee Example.library Scenario.reference
           Scenario.top_ranked).
  apply list_elem_of_filter. split.
  - split; [|discriminate]. apply (bool_decide_unpack _). vm_compute. exact I.
  - simpl. set_solver.
Defined.

Lemma articles_by_unknown_tag_witness :
  by_tag_get_queryset Scenario.tag_table "python" Example.blog
  = (Raise DoesNotExist, Example.blog).
Proof.
  apply (articles_by_unknown_tag Scenario.tag_table "python" Example.blog).
  apply (bool_decide_unpack _). vm_compute. exact I.
Defined.

Lemma articles_by_tag_membership_witness :
  by_tag_get_queryset Scenario.tag_table "django" Example.blog
  = (Ok (mkTag 2 "Django" "django",
         filter (λ a, 2 ∈ article_tags a) (articles Example.blog)),
     Example.blog).
Proof.
  apply (articles_by_tag_membership Scenario.tag_table "django"
           (mkTag 2 "Django" "django") Example.blog).
  - apply (bool_decide_unpack _). vm_compute. exact I.
  - apply (bool_decide_unpack _). vm_compute. exact I.
  - reflexivity.
Defined.
